(** * Map4D: summing a 4D data set over selected regions of its frames

    A shallow embedding of [Map4D.execute], of [map_4D] and of the button
    of the computation panel
    (nionswift_plugin/nion_experimental_4dtools/Map4D.py).

    Python objects live in a store and are named by references; numpy
    arrays are a shape and a reference to a flat buffer in C (row-major)
    order.  Every numpy call that builds an array allocates a buffer;
    [np.reshape] and [ravel] of a contiguous array give a view of the same
    buffer.  Exceptions are a second kind of outcome. *)

From Stdlib Require Import ZArith QArith String List Lia Permutation.
From stdpp Require Import base list.
Import ListNotations.
Close Scope Q_scope.
Local Open Scope string_scope.
Local Open Scope list_scope.
Local Open Scope nat_scope.

(** ** Outcomes and the state-and-exception monad *)

Inductive exn :=
| AssertionError
| ValueError (msg : string)
| IndexError
| InvalidRef. (* a reference that names no object of the expected kind;
                 no Python counterpart, a well-formed store rules it out *)

Inductive result (A : Type) :=
| Ok (a : A)
| Raise (e : exn).
Arguments Ok {A} a.
Arguments Raise {A} e.

Definition M (S A : Type) : Type := S -> result A * S.

Definition ret {S A} (a : A) : M S A := fun s => (Ok a, s).

Definition raise {S A} (e : exn) : M S A := fun s => (Raise e, s).

Definition bind {S A B} (m : M S A) (k : A -> M S B) : M S B :=
  fun s => match m s with
           | (Ok a, s') => k a s'
           | (Raise e, s') => (Raise e, s')
           end.

Notation "x <- m ;; k" := (bind m (fun x => k))
  (at level 100, m at next level, right associativity).

(** [assert o is not None] *)
Definition assert_some {S A} (o : option A) : M S A :=
  match o with
  | Some a => ret a
  | None => raise AssertionError
  end.

(** [for x in xs: acc = body(acc, x)] *)
Fixpoint for_each {S A B} (body : A -> B -> M S A) (acc : A) (xs : list B) : M S A :=
  match xs with
  | [] => ret acc
  | x :: xs' => acc' <- body acc x ;; for_each body acc' xs'
  end.

(** [[f(x) for x in xs]] *)
Fixpoint for_list {S A B} (f : A -> M S B) (xs : list A) : M S (list B) :=
  match xs with
  | [] => ret []
  | x :: xs' => y <- f x ;; ys <- for_list f xs' ;; ret (y :: ys)
  end.

(** ** Shapes and row-major indexing *)

(** [ndarray.size]: the product of the dimensions. *)
Definition prod (shp : list nat) : nat := fold_right Nat.mul 1 shp.

(** Flat position of a multi-index in C order. *)
Fixpoint ravel_index (shp idx : list nat) : nat :=
  match shp, idx with
  | _ :: rest, i :: idx' => i * prod rest + ravel_index rest idx'
  | _, _ => 0
  end.

(** Multi-index of a flat position in C order. *)
Fixpoint unravel_index (shp : list nat) (i : nat) : list nat :=
  match shp with
  | [] => []
  | _ :: rest => (i / prod rest) :: unravel_index rest (i mod prod rest)
  end.

(** ** Calibrations, arrays and extended data *)

(** The host's calibration: offset, scale and units.  Offset and scale are
    floats in the host; the plug-in only hands them on, so rationals stand
    in for them. *)
Record Calibration := { offset : Q; scale : Q; units : string }.

Abbreviation loc := nat (only parsing).

Record ndarray := { shape : list nat; base : loc }.

(** The host's DataAndMetadata, as far as the plug-in reads it. *)
Record XData := {
  data : ndarray;
  dimensional_calibrations : list loc;
  intensity_calibration : loc
}.

Definition data_shape (x : XData) : list nat := shape (data x).

(** Facade.DataSource: [xdata] may be None. *)
Record DataSource := { xdata : option XData }.

(** Modelled from the spec: Graphics.Graphic.get_mask is host code.  A
    region is what it selects: for a mask of shape [shp], whether the pixel
    at a multi-index belongs to it ("a 2-dimensional boolean array of shape
    (H, W), true where a pixel of the collection plane is included"). *)
Record Graphic := { covers : list nat -> list nat -> bool }.

(** The object [Map4D]: the computation handle and the result of the last
    [execute]; the attribute does not exist before the first call. *)
Record Map4D := { computation : nat; new_xdata : option XData }.

Section Reducer.

(** The element type of the source array with the addition and the zero of
    its dtype ([np.sum] adds the elements from 0). *)
Context {T : Type} (add : T -> T -> T) (zero : T).

Inductive object :=
| NumBuf (d : list T)
| BoolBuf (d : list bool)
| IdxBuf (d : list nat)
| CalObj (c : Calibration).

(** The store: references are positions, allocation appends. *)
Local Abbreviation heap := (list object).

Definition alloc (o : object) : M heap loc :=
  fun h => (Ok (length h), h ++ [o]).

Definition read_num (l : loc) : M heap (list T) :=
  fun h => match h !! l with
           | Some (NumBuf d) => (Ok d, h)
           | _ => (Raise InvalidRef, h)
           end.

Definition read_bool (l : loc) : M heap (list bool) :=
  fun h => match h !! l with
           | Some (BoolBuf d) => (Ok d, h)
           | _ => (Raise InvalidRef, h)
           end.

Definition read_idx (l : loc) : M heap (list nat) :=
  fun h => match h !! l with
           | Some (IdxBuf d) => (Ok d, h)
           | _ => (Raise InvalidRef, h)
           end.

Definition read_cal (l : loc) : M heap Calibration :=
  fun h => match h !! l with
           | Some (CalObj c) => (Ok c, h)
           | _ => (Raise InvalidRef, h)
           end.

(** ** The numpy calls of [execute] *)

(** [np.reshape(a, newshape)] for a C-contiguous [a]: a view of the same
    buffer.  A negative entry of [newshape] is the dimension to infer;
    numpy refuses to infer it when the known dimensions multiply to 0 or do
    not divide the size ("cannot reshape array of size ... into shape
    ..."; the message is kept without the numbers). *)
Definition np_reshape (a : ndarray) (newshape : list Z) : M heap ndarray :=
  let s_original := prod (shape a) in
  let s_known := prod (map Z.to_nat (List.filter (fun d => (0 <=? d)%Z) newshape)) in
  match length (List.filter (fun d => (d <? 0)%Z) newshape) with
  | 0 =>
      if s_original =? s_known
      then ret {| shape := map Z.to_nat newshape; base := base a |}
      else raise (ValueError "cannot reshape array")
  | 1 =>
      if (s_known =? 0) || negb (s_original mod s_known =? 0)
      then raise (ValueError "cannot reshape array")
      else ret {| shape := map (fun d => if (d <? 0)%Z then s_original / s_known
                                         else Z.to_nat d) newshape;
                  base := base a |}
  | _ => raise (ValueError "can only specify one unknown dimension")
  end.

(** [np.zeros(shp, dtype=np.bool_)] *)
Definition np_zeros (shp : list nat) : M heap ndarray :=
  l <- alloc (BoolBuf (repeat false (prod shp))) ;;
  ret {| shape := shp; base := l |}.

(** The pixels of a region laid out in C order. *)
Definition mask_table (region : Graphic) (shp : list nat) : list bool :=
  map (fun i => covers region shp (unravel_index shp i)) (seq 0 (prod shp)).

(** Modelled from the spec: [region.get_mask(shp)] is host code.  It gives
    a fresh boolean array of the shape asked for, filled in C order from
    what the region covers. *)
Definition get_mask (region : Graphic) (shp : list nat) : M heap ndarray :=
  l <- alloc (BoolBuf (mask_table region shp)) ;;
  ret {| shape := shp; base := l |}.

(** [np.logical_or(a, b)]: a fresh array.  Both operands have the same
    shape at its one call ([get_mask] is asked for the shape of
    [mask_data]); broadcasting between different shapes is left out, the
    model raises there as numpy does for shapes that cannot be broadcast. *)
Definition np_logical_or (a b : ndarray) : M heap ndarray :=
  x <- read_bool (base a) ;;
  y <- read_bool (base b) ;;
  if bool_decide (shape a = shape b)
  then l <- alloc (BoolBuf (zip_with orb x y)) ;;
       ret {| shape := shape a; base := l |}
  else raise (ValueError "operands could not be broadcast together").

(** [a.any()] *)
Definition np_any (a : ndarray) : M heap bool :=
  x <- read_bool (base a) ;;
  ret (existsb id x).

(** [np.arange(n)] *)
Definition np_arange (n : nat) : M heap ndarray :=
  l <- alloc (IdxBuf (seq 0 n)) ;;
  ret {| shape := [n]; base := l |}.

(** [a.ravel()] for a C-contiguous [a]: a one-dimensional view. *)
Definition ravel (a : ndarray) : ndarray :=
  {| shape := [prod (shape a)]; base := base a |}.

(** The entries of [xs] at the positions where [bs] is true, in order. *)
Definition where_true (xs : list nat) (bs : list bool) : list nat :=
  map fst (List.filter snd (combine xs bs)).

(** [a[m]] for a one-dimensional index array [a] and a boolean array [m]:
    a fresh array of the entries of [a] where [m] is true; the shapes must
    agree. *)
Definition getitem_bool (a m : ndarray) : M heap ndarray :=
  xs <- read_idx (base a) ;;
  bs <- read_bool (base m) ;;
  if bool_decide (shape a = shape m)
  then let sel := where_true xs bs in
       l <- alloc (IdxBuf sel) ;;
       ret {| shape := [length sel]; base := l |}
  else raise IndexError.

(** From each of the [outer] runs of [n] elements of [d], the elements at
    the positions [ix]. *)
Definition take_last (outer n : nat) (ix : list nat) (d : list T) : list T :=
  flat_map (fun i => map (fun j => nth (i * n + j) d zero) ix) (seq 0 outer).

(** [a[..., ind]] for a one-dimensional index array [ind]: a fresh array
    that keeps the leading axes and picks the positions [ind] along the
    last one; a position beyond the last axis is an IndexError. *)
Definition getitem_last (a ind : ndarray) : M heap ndarray :=
  d <- read_num (base a) ;;
  ix <- read_idx (base ind) ;;
  match shape a with
  | [] => raise IndexError
  | _ :: _ =>
      let n := List.last (shape a) 0 in
      if forallb (fun j => j <? n) ix
      then l <- alloc (NumBuf (take_last (prod (removelast (shape a))) n ix d)) ;;
           ret {| shape := removelast (shape a) ++ shape ind; base := l |}
      else raise IndexError
  end.

(** The sum of a run of elements, from the zero of the dtype. *)
Definition sum_list (xs : list T) : T := fold_left add xs zero.

(** The sums of the [outer] runs of [n] elements of [d]. *)
Definition sum_last (outer n : nat) (d : list T) : list T :=
  map (fun i => sum_list (firstn n (skipn (i * n) d))) (seq 0 outer).

(** [np.sum(a, axis=-1)]: a fresh array with the last axis summed away. *)
Definition np_sum_last (a : ndarray) : M heap ndarray :=
  d <- read_num (base a) ;;
  let n := List.last (shape a) 1 in
  l <- alloc (NumBuf (sum_last (prod (removelast (shape a))) n d)) ;;
  ret {| shape := removelast (shape a); base := l |}.

(** ** The host's constructor *)

(** [copy.deepcopy] of a calibration: a fresh object with the same value. *)
Definition copy_calibration (l : loc) : M heap loc :=
  c <- read_cal l ;;
  alloc (CalObj c).

(** Modelled from the spec: DataAndMetadata.new_data_and_metadata is host
    code.  It keeps the array it is given and stores calibrations "copied
    by value, not shared by reference". *)
Definition new_data_and_metadata (new_data : ndarray) (dims : list loc)
    (intensity : loc) : M heap XData :=
  dims' <- for_list copy_calibration dims ;;
  intensity' <- copy_calibration intensity ;;
  ret {| data := new_data;
         dimensional_calibrations := dims';
         intensity_calibration := intensity' |}.

(** ** Map4D.execute *)

Definition execute (self : Map4D) (src : option DataSource)
    (map_regions : option (list Graphic)) : M heap Map4D :=
  src <- assert_some src ;;
  map_regions <- assert_some map_regions ;;
  src_xdata <- assert_some (xdata src) ;;
  data_ <- np_reshape (data src_xdata)
             (map Z.of_nat (firstn 2 (data_shape src_xdata)) ++ [(-1)%Z]) ;;
  data_ <- assert_some (Some data_) ;;
  mask_data <- np_zeros (skipn 2 (data_shape src_xdata)) ;;
  mask_data <- for_each (fun mask_data region =>
                           m <- get_mask region (skipn 2 (data_shape src_xdata)) ;;
                           np_logical_or mask_data m)
                        mask_data map_regions ;;
  any <- np_any mask_data ;;
  new_data <- (if any
               then a <- np_arange (prod (shape mask_data)) ;;
                    ind <- getitem_bool a (ravel mask_data) ;;
                    sel <- getitem_last data_ ind ;;
                    np_sum_last sel
               else np_sum_last data_) ;;
  x <- new_data_and_metadata new_data
         (firstn 2 (dimensional_calibrations src_xdata))
         (intensity_calibration src_xdata) ;;
  ret {| computation := computation self; new_xdata := Some x |}.

(** ** What a caller can see of a run *)

(** The contents of an extended-data object: shape, elements and
    calibration values, whatever the references are. *)
Record xvalue := {
  xv_shape : list nat;
  xv_data : list T;
  xv_dims : list Calibration;
  xv_intensity : Calibration
}.

Definition num_at (h : heap) (l : loc) : option (list T) :=
  match h !! l with
  | Some (NumBuf d) => Some d
  | _ => None
  end.

Definition cal_at (h : heap) (l : loc) : option Calibration :=
  match h !! l with
  | Some (CalObj c) => Some c
  | _ => None
  end.

Fixpoint cals_at (h : heap) (ls : list loc) : option (list Calibration) :=
  match ls with
  | [] => Some []
  | l :: ls' =>
      match cal_at h l, cals_at h ls' with
      | Some c, Some cs => Some (c :: cs)
      | _, _ => None
      end
  end.

Definition snapshot (h : heap) (x : XData) : option xvalue :=
  match num_at h (base (data x)),
        cals_at h (dimensional_calibrations x),
        cal_at h (intensity_calibration x) with
  | Some d, Some cs, Some c =>
      Some {| xv_shape := data_shape x; xv_data := d; xv_dims := cs; xv_intensity := c |}
  | _, _, _ => None
  end.

(** The outcome of a call: the exception, or the contents of the result
    the object holds afterwards. *)
Definition observe (o : result Map4D * heap) : result (option xvalue) :=
  match fst o with
  | Ok self' =>
      Ok (match new_xdata self' with
          | Some x => snapshot (snd o) x
          | None => None
          end)
  | Raise e => Raise e
  end.

(** ** The reduction as a function of contents

    What [execute] leaves, computed from the contents of its source alone;
    [execute_observe] below shows that it is what a caller observes. *)

(** The mask after the loop over the regions. *)
Definition combined (shp : list nat) (regions : list Graphic) : list bool :=
  fold_left (fun m region => zip_with orb m (mask_table region shp))
            regions (repeat false (prod shp)).

(** The elements of the result, by the branch on [mask_data.any()]. *)
Definition reduced (outer n : nat) (d : list T) (m : list bool) : list T :=
  if existsb id m
  then let ix := where_true (seq 0 (length m)) m in
       sum_last outer (length ix) (take_last outer n ix d)
  else sum_last outer n d.

Definition reduce_value (v : xvalue) (regions : list Graphic) : result (option xvalue) :=
  let lead := firstn 2 (xv_shape v) in
  let rest := skipn 2 (xv_shape v) in
  if prod lead =? 0
  then Raise (ValueError "cannot reshape array")
  else Ok (Some {| xv_shape := lead;
                   xv_data := reduced (prod lead) (prod rest) (xv_data v)
                                      (combined rest regions);
                   xv_dims := firstn 2 (xv_dims v);
                   xv_intensity := xv_intensity v |}).

(** ** The sums the specification speaks of

    These follow the words of the specification, not the code. *)

(** [a[idx]] for an array of shape [shp] with elements [d]. *)
Definition item (shp : list nat) (d : list T) (idx : list nat) : T :=
  nth (ravel_index shp idx) d zero.

(** The pixels (h, w) of an H x W frame, rows first. *)
Definition pixels (H W : nat) : list (nat * nat) :=
  list_prod (seq 0 H) (seq 0 W).

(** The OR of the masks of the regions at a pixel. *)
Definition selects (regions : list Graphic) (H W : nat) (p : nat * nat) : bool :=
  existsb (fun region => covers region [H; W] [fst p; snd p]) regions.

(** The sum of source[r,c,h,w] over the pixels (h, w) some region selects. *)
Definition region_sum (regions : list Graphic) (R C H W : nat) (d : list T)
    (r c : nat) : T :=
  sum_list (map (fun p => item [R; C; H; W] d [r; c; fst p; snd p])
                (List.filter (selects regions H W) (pixels H W))).

(** The sum of source[r,c,h,w] over all pixels (h, w). *)
Definition frame_sum (R C H W : nat) (d : list T) (r c : nat) : T :=
  sum_list (map (fun p => item [R; C; H; W] d [r; c; fst p; snd p]) (pixels H W)).

(** ** Notions used in the statements *)

(** The body of the loop over the regions. *)
Definition loop_body (shp : list nat) (mask_data : ndarray) (region : Graphic)
  : M heap ndarray :=
  m <- get_mask region shp ;; np_logical_or mask_data m.

(** The objects the loop over the regions allocates, in order: for each
    region its mask, then the new value of [mask_data]. *)
Fixpoint loop_cells (shp : list nat) (m : list bool) (regions : list Graphic) : heap :=
  match regions with
  | [] => []
  | region :: regions' =>
      let m' := zip_with orb m (mask_table region shp) in
      BoolBuf (mask_table region shp) :: BoolBuf m' :: loop_cells shp m' regions'
  end.

(** A computation that only adds objects to the store. *)
Definition grows {A} (m : M heap A) : Prop := forall h, h `prefix_of` snd (m h).

(** A computation that raises no AssertionError. *)
Definition passes_asserts {A} (m : M heap A) : Prop :=
  forall h, fst (m h) <> Raise AssertionError.

(** [x] is, in the store [h], a 4D array of shape (R, C, H, W) with
    contents [v]. *)
Definition source_4d (h : heap) (x : XData) (v : xvalue) (R C H W : nat) : Prop :=
  snapshot h x = Some v /\
  xv_shape v = [R; C; H; W] /\
  length (xv_data v) = R * C * H * W.

(** The call returned, and its result is an R x C array [res] with
    [res[r,c] = f r c]. *)
Definition returns (o : result Map4D * heap) (R C : nat) (f : nat -> nat -> T) : Prop :=
  exists self' x' v',
    fst o = Ok self' /\ new_xdata self' = Some x' /\
    snapshot (snd o) x' = Some v' /\
    xv_shape v' = [R; C] /\ length (xv_data v') = R * C /\
    forall r c, r < R -> c < C -> item [R; C] (xv_data v') [r; c] = f r c.

End Reducer.

Arguments xvalue T : clear implicits.
Arguments object T : clear implicits.
Abbreviation heap T := (list (object T)).

(** ** The guard of map_4D *)

Module Setup.

(** The host objects [map_4D] reads, as far as it reads them. *)
Record DataItem := { xdata : option XData }.
Record DisplayDataChannel := { data_item : option DataItem }.
Record Display := { display_data_channel : option DisplayDataChannel }.

(** Modelled from the spec: DataAndMetadata.is_data_4d is host code; the
    data has "exactly 4 dimensions". *)
Definition is_data_4d (x : XData) : bool := length (data_shape x) =? 4.

(** A computation as [map_4D] fills it in. *)
Record Computation := {
  input_src : DisplayDataChannel;
  input_map_regions : list Graphic;
  processing_id : string
}.

Record PointGraphic := { label : string; role : string }.

(** The document of the host: the number of data items, the computation
    set on a data item, the data items shown, and the graphics added to
    their displays. *)
Record Document := {
  data_items : nat;
  computations : list (nat * Computation);
  shown : list nat;
  graphics : list (nat * PointGraphic)
}.

(** The host calls [map_4D] makes once the guard has passed; each changes
    one part of the document.  A data item is named by its number, and so
    is its display item. *)
Definition create_data_item : M Document nat :=
  fun doc => (Ok (data_items doc),
              {| data_items := S (data_items doc);
                 computations := computations doc;
                 shown := shown doc;
                 graphics := graphics doc |}).

Definition set_data_item_computation (item : nat) (c : Computation) : M Document unit :=
  fun doc => (Ok tt,
              {| data_items := data_items doc;
                 computations := (item, c) :: computations doc;
                 shown := shown doc;
                 graphics := graphics doc |}).

Definition show_display_item (item : nat) : M Document unit :=
  fun doc => (Ok tt,
              {| data_items := data_items doc;
                 computations := computations doc;
                 shown := item :: shown doc;
                 graphics := graphics doc |}).

Definition add_graphic (item : nat) (g : PointGraphic) : M Document unit :=
  fun doc => (Ok tt,
              {| data_items := data_items doc;
                 computations := computations doc;
                 shown := shown doc;
                 graphics := (item, g) :: graphics doc |}).

(** [map_4D]: the two checks, then the set-up of the computation
    "nion.map_4d.2" on a new data item and of its "Pick" graphic. *)
Definition map_4D (display_item : Display) (map_regions : list Graphic) : M Document nat :=
  match display_data_channel display_item with
  | None => raise (ValueError "Display item must have a single display.")
  | Some channel =>
      data_item <- assert_some (data_item channel) ;;
      if match xdata data_item with
         | None => true
         | Some x => negb (is_data_4d x)
         end
      then raise (ValueError "Data item must be 4D.")
      else
        map_data_item <- create_data_item ;;
        _ <- set_data_item_computation map_data_item
               {| input_src := channel;
                  input_map_regions := map_regions;
                  processing_id := "nion.map_4d.2" |} ;;
        _ <- show_display_item map_data_item ;;
        _ <- add_graphic map_data_item {| label := "Pick"; role := "collection_index" |} ;;
        ret map_data_item
  end.

End Setup.

(** ** The button "Select map graphic" of the computation panel *)

Module Panel.

(** The display the window targets, as far as the button reads it. *)
Record TargetDisplay := { selected_graphics : list Graphic }.

(** Host code (Symbolic.Computation), as the button relies on it: the
    state is the list of items of the input 'map_regions';
    [remove_item_from_objects('map_regions', index)] raises IndexError when
    there is no item at [index]. *)
Definition remove_item_from_objects (index : nat) : M (list Graphic) unit :=
  fun objects =>
    if index <? length objects
    then (Ok tt, firstn index objects ++ skipn (S index) objects)
    else (Raise IndexError, objects).

(** [insert_item_into_objects('map_regions', index, item)] *)
Definition insert_item_into_objects (index : nat) (item : Graphic)
  : M (list Graphic) unit :=
  fun objects => (Ok tt, firstn index objects ++ item :: skipn index objects).

(** [try: while True: remove_item_from_objects('map_regions', 0) / except
    IndexError: pass].  The loop has no bound of its own; [fuel] bounds the
    number of rounds and [None] says it ran out. *)
Fixpoint remove_items (fuel : nat) (objects : list Graphic)
  : option (result unit * list Graphic) :=
  match fuel with
  | 0 => None
  | S fuel' =>
      match remove_item_from_objects 0 objects with
      | (Ok _, objects') => remove_items fuel' objects'
      | (Raise IndexError, objects') => Some (Ok tt, objects')
      | (Raise e, objects') => Some (Raise e, objects')
      end
  end.

(** [select_button_clicked] *)
Definition select_button_clicked (fuel : nat) (target_display : option TargetDisplay)
    (objects : list Graphic) : option (result unit * list Graphic) :=
  let graphics :=
    match target_display with
    | Some display => Some (selected_graphics display)
    | None => None
    end in
  match graphics with
  | None | Some [] => Some (Ok tt, objects)
  | Some graphics =>
      match remove_items fuel objects with
      | Some (Ok _, objects') =>
          Some (for_each (fun _ graphic => insert_item_into_objects 0 graphic)
                         tt graphics objects')
      | other => other
      end
  end.

End Panel.

(** ** Inputs used in the examples *)

Definition cal_row : Calibration := {| offset := 0; scale := 1 # 2; units := "nm" |}.
Definition cal_col : Calibration := {| offset := 0; scale := 1 # 4; units := "nm" |}.
Definition cal_ky : Calibration := {| offset := - (1); scale := 1; units := "mrad" |}.
Definition cal_kx : Calibration := {| offset := - (1); scale := 2; units := "mrad" |}.
Definition cal_counts : Calibration := {| offset := 0; scale := 1; units := "counts" |}.

(** A store with the values 0..15 in one buffer and five calibrations. *)
Definition store_0_15 : heap Z :=
  [NumBuf (map Z.of_nat (seq 0 16)); CalObj cal_row; CalObj cal_col;
   CalObj cal_ky; CalObj cal_kx; CalObj cal_counts].

(** The (2,2,2,2) source filled with 0..15 in row-major order. *)
Definition xdata_2222 : XData :=
  {| data := {| shape := [2; 2; 2; 2]; base := 0 |};
     dimensional_calibrations := [1; 2; 3; 4];
     intensity_calibration := 5 |}.

Definition value_2222 : xvalue Z :=
  {| xv_shape := [2; 2; 2; 2];
     xv_data := map Z.of_nat (seq 0 16);
     xv_dims := [cal_row; cal_col; cal_ky; cal_kx];
     xv_intensity := cal_counts |}.

(** The same 16 values as a 3D array of shape (2,2,4). *)
Definition xdata_224 : XData :=
  {| data := {| shape := [2; 2; 4]; base := 0 |};
     dimensional_calibrations := [1; 2; 3];
     intensity_calibration := 5 |}.

(** A 4D source with an empty scan plane: shape (0,1,1,1), no elements. *)
Definition store_empty : heap Z :=
  [NumBuf []; CalObj cal_row; CalObj cal_col; CalObj cal_ky; CalObj cal_kx;
   CalObj cal_counts].

Definition xdata_0111 : XData :=
  {| data := {| shape := [0; 1; 1; 1]; base := 0 |};
     dimensional_calibrations := [1; 2; 3; 4];
     intensity_calibration := 5 |}.

Definition value_0111 : xvalue Z :=
  {| xv_shape := [0; 1; 1; 1];
     xv_data := [];
     xv_dims := [cal_row; cal_col; cal_ky; cal_kx];
     xv_intensity := cal_counts |}.

(** Regions: the pixel (0,0) alone, the row h = 0, nothing, everything. *)
Definition region_origin : Graphic :=
  {| covers := fun _ idx => match idx with [0; 0] => true | _ => false end |}.

Definition region_row0 : Graphic :=
  {| covers := fun _ idx => match idx with 0 :: _ => true | _ => false end |}.

Definition region_nothing : Graphic := {| covers := fun _ _ => false |}.

Definition region_all : Graphic := {| covers := fun _ _ => true |}.

Definition map4d_new : Map4D := {| computation := 0; new_xdata := None |}.

(** A first call, the object and the store it leaves. *)
Definition first_run : result Map4D * heap Z :=
  execute Z.add 0%Z map4d_new (Some {| xdata := Some xdata_2222 |})
          (Some [region_origin]) store_0_15.

Definition map4d_after : Map4D :=
  match fst first_run with
  | Ok self' => self'
  | Raise _ => map4d_new
  end.

Definition store_after : heap Z := snd first_run.

(** A display of the 3D data item, and an empty document. *)
Definition display_224 : Setup.Display :=
  {| Setup.display_data_channel :=
       Some {| Setup.data_item := Some {| Setup.xdata := Some xdata_224 |} |} |}.

Definition document_empty : Setup.Document :=
  {| Setup.data_items := 1; Setup.computations := [];
     Setup.shown := []; Setup.graphics := [] |}.

(** ** Further inputs *)

(** The pixel (1,1) alone. *)
Definition region_corner : Graphic :=
  {| covers := fun _ idx => match idx with [1; 1] => true | _ => false end |}.



Definition value_224 : xvalue Z :=
  {| xv_shape := [2; 2; 4];
     xv_data := map Z.of_nat (seq 0 16);
     xv_dims := [cal_row; cal_col; cal_ky];
     xv_intensity := cal_counts |}.

(** A window with two graphics selected. *)
Definition target_two : Panel.TargetDisplay :=
  {| Panel.selected_graphics := [region_origin; region_row0] |}.

(** * Facts on lists, shapes and pixels *)

Section ListFacts.
Context {T : Type} (add : T -> T -> T) (zero : T).

Lemma bind_ok {S A B} (m : M S A) (k : A -> M S B) s a s' :
  m s = (Ok a, s') -> bind m k s = k a s'.
Proof. intros E. unfold bind. now rewrite E. Qed.

Lemma bind_raise {S A B} (m : M S A) (k : A -> M S B) s e s' :
  m s = (Raise e, s') -> bind m k s = (Raise e, s').
Proof. intros E. unfold bind. now rewrite E. Qed.

Lemma bind_ok_inv {S A B} (m : M S A) (k : A -> M S B) s b s'' :
  bind m k s = (Ok b, s'') -> exists a s', m s = (Ok a, s') /\ k a s' = (Ok b, s'').
Proof.
  unfold bind. destruct (m s) as [[a|e] s'] eqn:E; intros H.
  - eauto.
  - discriminate.
Qed.

Lemma prod_app (a b : list nat) : prod (a ++ b) = prod a * prod b.
Proof. induction a as [|x a IH]; simpl; [lia|]. rewrite IH. lia. Qed.

Lemma prod_lead_rest (s : list nat) : prod s = prod (firstn 2 s) * prod (skipn 2 s).
Proof. rewrite <- prod_app. now rewrite firstn_skipn. Qed.

Lemma filter_unknown (l : list nat) :
  List.filter (fun d => (d <? 0)%Z) (map Z.of_nat l ++ [(-1)%Z]) = [(-1)%Z].
Proof.
  induction l as [|x l IH]; simpl; [reflexivity|].
  destruct (Z.ltb_spec (Z.of_nat x) 0); [lia | exact IH].
Qed.

Lemma filter_known (l : list nat) :
  map Z.to_nat (List.filter (fun d => (0 <=? d)%Z) (map Z.of_nat l ++ [(-1)%Z])) = l.
Proof.
  induction l as [|x l IH]; simpl; [reflexivity|].
  destruct (Z.leb_spec 0 (Z.of_nat x)); [|lia].
  simpl. now rewrite Nat2Z.id, IH.
Qed.

Lemma map_inferred (q : nat) (l : list nat) :
  map (fun d => if (d <? 0)%Z then q else Z.to_nat d) (map Z.of_nat l ++ [(-1)%Z]) = l ++ [q].
Proof.
  induction l as [|x l IH]; simpl; [reflexivity|].
  destruct (Z.ltb_spec (Z.of_nat x) 0); [lia|].
  now rewrite Nat2Z.id, IH.
Qed.

(** Pure facts on the list operations *)

Lemma zip_with_map {A} (f g : A -> bool) (l : list A) :
  zip_with orb (map f l) (map g l) = map (fun i => f i || g i) l.
Proof. induction l as [|x l IH]; simpl; [reflexivity|]. now rewrite IH. Qed.

Lemma repeat_map_seq {A} (x : A) (n : nat) : repeat x n = map (fun _ => x) (seq 0 n).
Proof.
  generalize 0 as a. induction n as [|n IH]; intros a; simpl; [reflexivity|].
  now rewrite (IH (S a)).
Qed.

Lemma fold_or_pointwise shp regions : forall f,
  fold_left (fun m region => zip_with orb m (mask_table region shp)) regions
            (map f (seq 0 (prod shp))) =
  map (fun i => f i || existsb (fun region => covers region shp (unravel_index shp i)) regions)
      (seq 0 (prod shp)).
Proof.
  unfold mask_table.
  induction regions as [|region regions IH]; intros f; cbn [fold_left existsb].
  - apply map_ext. intros i. now rewrite orb_false_r.
  - rewrite zip_with_map, IH.
    apply map_ext. intros i. now rewrite orb_assoc.
Qed.

Lemma combined_pointwise shp regions :
  combined shp regions =
  map (fun i => existsb (fun region => covers region shp (unravel_index shp i)) regions)
      (seq 0 (prod shp)).
Proof. unfold combined. rewrite repeat_map_seq. apply fold_or_pointwise. Qed.

Lemma length_combined shp regions : length (combined shp regions) = prod shp.
Proof. rewrite combined_pointwise. now rewrite length_map, length_seq. Qed.

Lemma where_true_map (f : nat -> bool) (l : list nat) :
  where_true l (map f l) = List.filter f l.
Proof.
  unfold where_true. induction l as [|x l IH]; simpl; [reflexivity|].
  destruct (f x); simpl; now rewrite IH.
Qed.

Lemma existsb_id_map {A} (f : A -> bool) (l : list A) : existsb id (map f l) = existsb f l.
Proof. induction l as [|x l IH]; simpl; [reflexivity|]. now rewrite IH. Qed.

Lemma where_true_In xs bs j : In j (where_true xs bs) -> In j xs.
Proof.
  unfold where_true. intros H. apply in_map_iff in H as ([x b] & <- & H).
  apply filter_In in H as [H _]. now apply in_combine_l in H.
Qed.

Lemma where_true_bound bs :
  forallb (fun j => j <? length bs) (where_true (seq 0 (length bs)) bs) = true.
Proof.
  apply forallb_forall. intros j H. apply where_true_In, in_seq in H.
  apply Nat.ltb_lt. lia.
Qed.

Lemma chunk_flat_map (f : nat -> list T) (k cnt : nat) :
  (forall i, length (f i) = k) ->
  forall a i, i < cnt ->
  firstn k (skipn (i * k) (flat_map f (seq a cnt))) = f (a + i).
Proof.
  intros Hk. induction cnt as [|cnt IH]; intros a i Hi; [lia|]. simpl.
  destruct i as [|i]; simpl.
  - rewrite Nat.add_0_r, <- (Hk a). apply take_app_length.
  - rewrite skipn_app, skipn_all2 by (rewrite Hk; lia).
    rewrite Hk. replace (k + i * k - k) with (i * k) by lia. simpl.
    rewrite IH by lia. f_equal. lia.
Qed.

Lemma sum_last_take_last outer n ix d :
  sum_last add zero outer (length ix) (take_last zero outer n ix d) =
  map (fun i => sum_list add zero (map (fun j => nth (i * n + j) d zero) ix)) (seq 0 outer).
Proof.
  unfold sum_last, take_last. apply map_ext_in. intros i Hi. apply in_seq in Hi.
  rewrite chunk_flat_map; [reflexivity| |lia].
  intros i'. apply length_map.
Qed.

Lemma nth_map_seq (g : nat -> T) n i : i < n -> nth i (map g (seq 0 n)) zero = g i.
Proof.
  intros Hi.
  rewrite (nth_indep (map g (seq 0 n)) zero (g 0)) by (rewrite length_map, length_seq; lia).
  rewrite (map_nth g), seq_nth by lia. reflexivity.
Qed.

Lemma chunk_nth k a d :
  a + k <= length d ->
  firstn k (skipn a d) = map (fun j => nth (a + j) d zero) (seq 0 k).
Proof.
  intros Hl. apply (nth_ext _ _ zero zero).
  - rewrite length_firstn, length_skipn, length_map, length_seq. lia.
  - intros j Hj. rewrite length_firstn, length_skipn in Hj.
    rewrite nth_firstn. destruct (Nat.ltb_spec j k); [|lia].
    rewrite nth_skipn. symmetry. apply (nth_map_seq (fun j => nth (a + j) d zero)). lia.
Qed.

(** Pixels and flat positions *)

Lemma map_add_seq c n : forall b, map (fun w => c + w) (seq b n) = seq (c + b) n.
Proof.
  induction n as [|n IH]; intros b; simpl; [reflexivity|].
  rewrite IH. do 2 f_equal. lia.
Qed.

Lemma pixels_flat_from W H : forall a,
  map (fun p => fst p * W + snd p) (list_prod (seq a H) (seq 0 W)) = seq (a * W) (H * W).
Proof.
  induction H as [|H IH]; intros a; simpl; [reflexivity|].
  rewrite map_app, map_map, IH. simpl.
  rewrite seq_app, map_add_seq, Nat.add_0_r. f_equal. f_equal. lia.
Qed.

Lemma pixels_flat H W :
  map (fun p => fst p * W + snd p) (pixels H W) = seq 0 (H * W).
Proof. apply (pixels_flat_from W H 0). Qed.

Lemma pixels_In H W p : In p (pixels H W) -> fst p < H /\ snd p < W.
Proof.
  destruct p as [h w]. unfold pixels. rewrite in_prod_iff, !in_seq. simpl. lia.
Qed.

Lemma unravel_pixel H W h w : w < W -> unravel_index [H; W] (h * W + w) = [h; w].
Proof.
  intros Hw. cbn [unravel_index prod fold_right].
  rewrite !Nat.mul_1_r, Nat.div_1_r.
  rewrite Nat.div_add_l, Nat.div_small by lia.
  rewrite (Nat.add_comm (h * W)), Nat.Div0.mod_add, Nat.mod_small by lia.
  now rewrite Nat.add_0_r.
Qed.

Lemma ravel_4d R C H W r c h w :
  ravel_index [R; C; H; W] [r; c; h; w] = (r * C + c) * (H * W) + (h * W + w).
Proof. simpl. lia. Qed.

Lemma ravel_2d R C r c : ravel_index [R; C] [r; c] = r * C + c.
Proof. simpl. lia. Qed.
End ListFacts.

(** * Running the calls on a store *)

Section StoreFacts.
Context {T : Type} (add : T -> T -> T) (zero : T).
Implicit Types (h : heap T).
Local Abbreviation grows := (@grows T _).
Local Abbreviation loop_cells := (@loop_cells T).
Local Abbreviation passes_asserts := (@passes_asserts T _).

Lemma np_reshape_lead (a : ndarray) h :
  np_reshape a (map Z.of_nat (firstn 2 (shape a)) ++ [(-1)%Z]) h =
  if prod (firstn 2 (shape a)) =? 0
  then (Raise (ValueError "cannot reshape array"), h)
  else (Ok {| shape := firstn 2 (shape a) ++ [prod (skipn 2 (shape a))]; base := base a |}, h).
Proof.
  unfold np_reshape. rewrite filter_unknown, filter_known, map_inferred. simpl.
  destruct (Nat.eqb_spec (prod (firstn 2 (shape a))) 0) as [E|E]; [reflexivity|].
  pose proof (prod_lead_rest (shape a)) as Hp.
  rewrite Nat.mul_comm in Hp. rewrite Hp.
  rewrite Nat.Div0.mod_mul, Nat.div_mul by exact E.
  reflexivity.
Qed.

Lemma lookup_grow h news (l : nat) (o : object T) :
  h !! l = Some o -> (h ++ news) !! l = Some o.
Proof. apply lookup_app_l_Some. Qed.

Lemma lookup_new h news (o : object T) : (h ++ o :: news) !! length h = Some o.
Proof. now apply list_lookup_middle. Qed.

Lemma read_num_run h l d : h !! l = Some (NumBuf d) -> read_num l h = (Ok d, h).
Proof. intros E. unfold read_num. now rewrite E. Qed.

Lemma read_bool_run h l x : h !! l = Some (BoolBuf x) -> read_bool l h = (Ok x, h).
Proof. intros E. unfold read_bool. now rewrite E. Qed.

Lemma read_idx_run h l x : h !! l = Some (IdxBuf x) -> read_idx l h = (Ok x, h).
Proof. intros E. unfold read_idx. now rewrite E. Qed.

Lemma read_cal_run h l c : h !! l = Some (CalObj c) -> read_cal l h = (Ok c, h).
Proof. intros E. unfold read_cal. now rewrite E. Qed.

Lemma np_logical_or_run (a b : ndarray) h x y :
  h !! base a = Some (BoolBuf x) -> h !! base b = Some (BoolBuf y) ->
  shape a = shape b ->
  np_logical_or a b h =
  (Ok {| shape := shape a; base := length h |}, h ++ [BoolBuf (zip_with orb x y)]).
Proof.
  intros Ha Hb Hs. unfold np_logical_or.
  rewrite (bind_ok _ _ _ _ _ (read_bool_run _ _ _ Ha)).
  rewrite (bind_ok _ _ _ _ _ (read_bool_run _ _ _ Hb)).
  rewrite bool_decide_eq_true_2 by exact Hs. reflexivity.
Qed.

Lemma loop_body_run shp (md : ndarray) region h m :
  h !! base md = Some (BoolBuf m) -> shape md = shp ->
  loop_body shp md region h =
  (Ok {| shape := shp; base := S (length h) |},
   h ++ [BoolBuf (mask_table region shp); BoolBuf (zip_with orb m (mask_table region shp))]).
Proof.
  intros Hm Hs. unfold loop_body, get_mask, alloc, bind at 1 2, ret.
  erewrite np_logical_or_run.
  - simpl. rewrite Hs, length_app, <- app_assoc. simpl.
    now rewrite Nat.add_1_r.
  - simpl. apply lookup_grow, Hm.
  - simpl. apply lookup_new.
  - simpl. exact Hs.
Qed.

Lemma loop_run shp regions : forall (md : ndarray) m h,
  h !! base md = Some (BoolBuf m) -> shape md = shp ->
  exists md',
    for_each (loop_body shp) md regions h = (Ok md', h ++ loop_cells shp m regions) /\
    shape md' = shp /\
    (h ++ loop_cells shp m regions) !! base md' =
      Some (BoolBuf (fold_left (fun m region => zip_with orb m (mask_table region shp)) regions m)).
Proof.
  induction regions as [|region regions IH]; intros md m h Hm Hs; simpl.
  - exists md. rewrite app_nil_r. auto.
  - rewrite (bind_ok _ _ _ _ _ (loop_body_run shp md region h m Hm Hs)).
    set (mt := mask_table region shp). set (m' := zip_with orb m mt).
    destruct (IH {| shape := shp; base := S (length h) |} m' (h ++ [BoolBuf mt; BoolBuf m']))
      as (md' & Hrun & Hs' & Hl).
    + simpl. change (h ++ [BoolBuf mt; BoolBuf m']) with (h ++ [BoolBuf mt] ++ [BoolBuf m']).
      rewrite app_assoc. replace (S (length h)) with (length (h ++ [BoolBuf mt])).
      * apply lookup_new.
      * rewrite length_app. simpl. lia.
    + reflexivity.
    + exists md'. rewrite <- app_assoc in Hrun, Hl. simpl in Hrun, Hl. auto.
Qed.

Lemma cal_at_grow h news l c : cal_at h l = Some c -> cal_at (h ++ news) l = Some c.
Proof.
  unfold cal_at. destruct (h !! l) as [o|] eqn:E; [|discriminate].
  rewrite (lookup_grow _ news _ _ E). auto.
Qed.

Lemma cal_at_lookup h l c : cal_at h l = Some c <-> h !! l = Some (CalObj c).
Proof.
  unfold cal_at. destruct (h !! l) as [[]|]; split; intros H; try discriminate; congruence.
Qed.

Lemma num_at_lookup h l d : num_at h l = Some d <-> h !! l = Some (NumBuf d).
Proof.
  unfold num_at. destruct (h !! l) as [[]|]; split; intros H; try discriminate; congruence.
Qed.

Lemma cals_at_grow h news ls : forall cs,
  cals_at h ls = Some cs -> cals_at (h ++ news) ls = Some cs.
Proof.
  induction ls as [|l ls IH]; intros cs; simpl; [auto|].
  destruct (cal_at h l) as [c|] eqn:E; [|discriminate].
  destruct (cals_at h ls) as [cs'|]; [|discriminate].
  intros H. rewrite (cal_at_grow _ news _ _ E), (IH cs' eq_refl). exact H.
Qed.

Lemma cals_at_firstn h n ls : forall cs,
  cals_at h ls = Some cs -> cals_at h (firstn n ls) = Some (firstn n cs).
Proof.
  revert n. induction ls as [|l ls IH]; intros n cs; simpl.
  - intros [= <-]. now destruct n.
  - destruct (cal_at h l) as [c|] eqn:E; [|discriminate].
    destruct (cals_at h ls) as [cs'|]; [|discriminate].
    intros [= <-]. destruct n; simpl; [reflexivity|].
    now rewrite E, (IH n cs' eq_refl).
Qed.

Lemma cals_at_length h ls : forall cs, cals_at h ls = Some cs -> length cs = length ls.
Proof.
  induction ls as [|l ls IH]; intros cs; simpl.
  - now intros [= <-].
  - destruct (cal_at h l); [|discriminate].
    destruct (cals_at h ls) as [cs'|]; [|discriminate].
    intros [= <-]. simpl. now rewrite (IH cs' eq_refl).
Qed.

Lemma cals_at_In h ls : forall cs l,
  cals_at h ls = Some cs -> In l ls -> exists c, h !! l = Some (CalObj c).
Proof.
  induction ls as [|l' ls IH]; intros cs l; simpl; [contradiction|].
  destruct (cal_at h l') as [c|] eqn:E; [|discriminate].
  destruct (cals_at h ls) as [cs'|]; [|discriminate].
  intros _ [<-|Hin].
  - exists c. now apply cal_at_lookup.
  - now apply (IH cs').
Qed.

Lemma cals_at_new cs : forall h rest,
  cals_at (h ++ map CalObj cs ++ rest) (seq (length h) (length cs)) = Some cs.
Proof.
  induction cs as [|c cs IH]; intros h rest; simpl; [reflexivity|].
  rewrite (proj2 (cal_at_lookup _ _ _) (lookup_new h _ (CalObj c))).
  change (h ++ CalObj c :: map CalObj cs ++ rest)
    with (h ++ [CalObj c] ++ map CalObj cs ++ rest).
  rewrite app_assoc.
  replace (S (length h)) with (length (h ++ [CalObj c])) by (rewrite length_app; simpl; lia).
  now rewrite IH.
Qed.

Lemma copy_all_run ls : forall cs h,
  cals_at h ls = Some cs ->
  for_list copy_calibration ls h = (Ok (seq (length h) (length ls)), h ++ map CalObj cs).
Proof.
  induction ls as [|l ls IH]; intros cs h; simpl.
  - intros [= <-]. simpl. now rewrite app_nil_r.
  - destruct (cal_at h l) as [c|] eqn:E; [|discriminate].
    destruct (cals_at h ls) as [cs'|] eqn:E'; [|discriminate].
    intros [= <-].
    assert (Hc : copy_calibration l h = (Ok (length h), h ++ [CalObj c])).
    { unfold copy_calibration.
      now rewrite (bind_ok _ _ _ _ _ (read_cal_run _ _ _ (proj1 (cal_at_lookup _ _ _) E))). }
    rewrite (bind_ok _ _ _ _ _ Hc).
    rewrite (bind_ok _ _ _ _ _ (IH cs' _ (cals_at_grow _ [CalObj c] _ _ E'))).
    unfold ret. rewrite length_app, <- app_assoc. simpl.
    now rewrite Nat.add_1_r.
Qed.

Lemma np_any_run (a : ndarray) h x :
  h !! base a = Some (BoolBuf x) -> np_any a h = (Ok (existsb id x), h).
Proof.
  intros Ha. unfold np_any.
  now rewrite (bind_ok _ _ _ _ _ (read_bool_run _ _ _ Ha)).
Qed.

Lemma np_sum_last_run (a : ndarray) h d :
  h !! base a = Some (NumBuf d) ->
  np_sum_last add zero a h =
  (Ok {| shape := removelast (shape a); base := length h |},
   h ++ [NumBuf (sum_last add zero (prod (removelast (shape a))) (List.last (shape a) 1) d)]).
Proof.
  intros Ha. unfold np_sum_last.
  now rewrite (bind_ok _ _ _ _ _ (read_num_run _ _ _ Ha)).
Qed.

Lemma getitem_bool_run (a m : ndarray) h xs bs :
  h !! base a = Some (IdxBuf xs) -> h !! base m = Some (BoolBuf bs) ->
  shape a = shape m ->
  getitem_bool a m h =
  (Ok {| shape := [length (where_true xs bs)]; base := length h |},
   h ++ [IdxBuf (where_true xs bs)]).
Proof.
  intros Ha Hm Hs. unfold getitem_bool.
  rewrite (bind_ok _ _ _ _ _ (read_idx_run _ _ _ Ha)).
  rewrite (bind_ok _ _ _ _ _ (read_bool_run _ _ _ Hm)).
  now rewrite bool_decide_eq_true_2 by exact Hs.
Qed.

Lemma getitem_last_run (a ind : ndarray) h d ix lead n :
  h !! base a = Some (NumBuf d) -> h !! base ind = Some (IdxBuf ix) ->
  shape a = lead ++ [n] -> forallb (fun j => j <? n) ix = true ->
  getitem_last zero a ind h =
  (Ok {| shape := lead ++ shape ind; base := length h |},
   h ++ [NumBuf (take_last zero (prod lead) n ix d)]).
Proof.
  intros Ha Hi Hs Hb. unfold getitem_last.
  rewrite (bind_ok _ _ _ _ _ (read_num_run _ _ _ Ha)).
  rewrite (bind_ok _ _ _ _ _ (read_idx_run _ _ _ Hi)).
  rewrite Hs, last_last, removelast_last, Hb.
  now destruct lead.
Qed.

Lemma new_data_and_metadata_run (nd : ndarray) dims i h cs c :
  cals_at h dims = Some cs -> cal_at h i = Some c ->
  new_data_and_metadata nd dims i h =
  (Ok {| data := nd;
         dimensional_calibrations := seq (length h) (length dims);
         intensity_calibration := length h + length dims |},
   h ++ map CalObj cs ++ [CalObj c]).
Proof.
  intros Hd Hi. unfold new_data_and_metadata.
  rewrite (bind_ok _ _ _ _ _ (copy_all_run _ _ _ Hd)).
  assert (Hc : copy_calibration i (h ++ map CalObj cs) =
               (Ok (length (h ++ map CalObj cs)), (h ++ map CalObj cs) ++ [CalObj c])).
  { unfold copy_calibration. erewrite bind_ok; [reflexivity|].
    apply read_cal_run, lookup_grow, cal_at_lookup, Hi. }
  rewrite (bind_ok _ _ _ _ _ Hc). unfold ret.
  rewrite length_app, length_map, (cals_at_length _ _ _ Hd), <- app_assoc.
  reflexivity.
Qed.

(** The block after [mask_data.any()]: both branches end in a fresh array
    of the leading shape that holds the reduced elements. *)
Lemma select_and_sum_run (data_ md : ndarray) h d m lead n :
  shape data_ = lead ++ [n] ->
  h !! base data_ = Some (NumBuf d) ->
  h !! base md = Some (BoolBuf m) ->
  length m = n -> prod (shape md) = n ->
  exists news,
    (if existsb id m
     then a <- np_arange (prod (shape md)) ;;
          ind <- getitem_bool a (ravel md) ;;
          sel <- getitem_last zero data_ ind ;;
          np_sum_last add zero sel
     else np_sum_last add zero data_) h =
    (Ok {| shape := lead; base := length (h ++ news) |},
     (h ++ news) ++ [NumBuf (reduced add zero (prod lead) n d m)]).
Proof.
  intros Hs Hd Hm Hlen Hsize. subst n. unfold reduced. destruct (existsb id m).
  - set (n := length m). set (ix := where_true (seq 0 n) m).
    exists [IdxBuf (seq 0 n); IdxBuf ix; NumBuf (take_last zero (prod lead) n ix d)].
    unfold np_arange, alloc, bind at 1 2, ret. rewrite Hsize.
    erewrite bind_ok; cycle 1.
    { apply getitem_bool_run with (xs := seq 0 n) (bs := m); simpl.
      - apply lookup_new.
      - apply lookup_grow, Hm.
      - now rewrite Hsize. }
    fold ix.
    erewrite bind_ok; cycle 1.
    { apply getitem_last_run with (d := d) (ix := ix) (lead := lead) (n := n); simpl.
      - rewrite <- app_assoc. apply lookup_grow, Hd.
      - apply lookup_new.
      - exact Hs.
      - apply where_true_bound. }
    erewrite np_sum_last_run by (simpl; apply lookup_new).
    cbn [shape]. rewrite last_last, removelast_last.
    rewrite <- !app_assoc. reflexivity.
  - exists []. rewrite app_nil_r.
    rewrite (np_sum_last_run _ _ _ Hd), Hs, last_last, removelast_last.
    reflexivity.
Qed.

Lemma snapshot_inv h x v :
  snapshot h x = Some v ->
  h !! base (data x) = Some (NumBuf (xv_data v)) /\
  cals_at h (dimensional_calibrations x) = Some (xv_dims v) /\
  cal_at h (intensity_calibration x) = Some (xv_intensity v) /\
  xv_shape v = data_shape x.
Proof.
  unfold snapshot.
  destruct (num_at h (base (data x))) as [d|] eqn:Ed; [|discriminate].
  destruct (cals_at h (dimensional_calibrations x)) as [cs|]; [|discriminate].
  destruct (cal_at h (intensity_calibration x)) as [c|]; [|discriminate].
  intros [= <-]. simpl. apply num_at_lookup in Ed. auto.
Qed.

Lemma bind_ret {S A B} (a : A) (k : A -> M S B) s : bind (ret a) k s = k a s.
Proof. reflexivity. Qed.

Lemma execute_fail self x regions h :
  prod (firstn 2 (data_shape x)) = 0 ->
  execute add zero self (Some {| xdata := Some x |}) (Some regions) h =
  (Raise (ValueError "cannot reshape array"), h).
Proof.
  intros E. unfold execute. repeat (cbn [assert_some xdata]; rewrite bind_ret).
  unfold data_shape in *. erewrite bind_raise; [reflexivity|].
  rewrite np_reshape_lead. now rewrite E.
Qed.

Lemma execute_run self x regions h v :
  snapshot h x = Some v ->
  prod (firstn 2 (xv_shape v)) <> 0 ->
  exists news x',
    execute add zero self (Some {| xdata := Some x |}) (Some regions) h =
      (Ok {| computation := computation self; new_xdata := Some x' |},
       h ++ BoolBuf (repeat false (prod (skipn 2 (xv_shape v))))
         :: loop_cells (skipn 2 (xv_shape v))
                       (repeat false (prod (skipn 2 (xv_shape v)))) regions ++ news) /\
    snapshot (h ++ BoolBuf (repeat false (prod (skipn 2 (xv_shape v))))
                :: loop_cells (skipn 2 (xv_shape v))
                              (repeat false (prod (skipn 2 (xv_shape v)))) regions ++ news) x' =
      Some {| xv_shape := firstn 2 (xv_shape v);
              xv_data := reduced add zero (prod (firstn 2 (xv_shape v)))
                                 (prod (skipn 2 (xv_shape v))) (xv_data v)
                                 (combined (skipn 2 (xv_shape v)) regions);
              xv_dims := firstn 2 (xv_dims v);
              xv_intensity := xv_intensity v |} /\
    length h <= base (data x') /\
    Forall (fun l => length h <= l) (dimensional_calibrations x') /\
    length h <= intensity_calibration x'.
Proof.
  intros Hv Hlead. apply snapshot_inv in Hv as (Hd & Hcs & Hc & Hshape).
  rewrite Hshape in *. unfold data_shape in *.
  set (lead := firstn 2 (shape (data x))) in *.
  set (shp := skipn 2 (shape (data x))).
  set (zeros := repeat false (prod shp)).
  unfold execute. repeat (cbn [assert_some xdata]; rewrite bind_ret).
  unfold data_shape. fold lead shp.
  erewrite bind_ok; cycle 1.
  { rewrite np_reshape_lead. fold lead shp.
    destruct (Nat.eqb_spec (prod lead) 0); [contradiction|reflexivity]. }
  cbn [assert_some]. rewrite bind_ret.
  assert (Hz : np_zeros shp h = (Ok {| shape := shp; base := length h |}, h ++ [BoolBuf zeros]))
    by reflexivity.
  rewrite (bind_ok _ _ _ _ _ Hz).
  destruct (loop_run shp regions {| shape := shp; base := length h |} zeros
              (h ++ [BoolBuf zeros])) as (md & Hloop & Hmd & Hm).
  { apply lookup_new. }
  { reflexivity. }
  unfold loop_body in Hloop. rewrite (bind_ok _ _ _ _ _ Hloop).
  change (fold_left _ regions zeros) with (combined shp regions) in Hm.
  set (h2 := (h ++ [BoolBuf zeros]) ++ loop_cells shp zeros regions) in *.
  rewrite (bind_ok _ _ _ _ _ (np_any_run _ _ _ Hm)).
  destruct (select_and_sum_run {| shape := lead ++ [prod shp]; base := base (data x) |}
              md h2 (xv_data v) (combined shp regions) lead (prod shp))
    as (news & Hsel).
  { reflexivity. }
  { subst h2. rewrite <- app_assoc. apply lookup_grow, Hd. }
  { exact Hm. }
  { apply length_combined. }
  { now rewrite Hmd. }
  rewrite (bind_ok _ _ _ _ _ Hsel).
  set (rd := reduced add zero (prod lead) (prod shp) (xv_data v) (combined shp regions)) in *.
  set (h3 := (h2 ++ news) ++ [NumBuf rd]).
  assert (Hpre : exists k, h3 = h ++ k).
  { exists (BoolBuf zeros :: loop_cells shp zeros regions ++ news ++ [NumBuf rd]).
    subst h3 h2. now rewrite <- !app_assoc. }
  destruct Hpre as [k Hk].
  erewrite bind_ok; cycle 1.
  { apply new_data_and_metadata_run
      with (cs := firstn 2 (xv_dims v)) (c := xv_intensity v).
    - rewrite Hk. apply cals_at_grow, cals_at_firstn, Hcs.
    - rewrite Hk. apply cal_at_grow, Hc. }
  cbn [ret].
  set (cs2 := firstn 2 (xv_dims v)).
  assert (Hlen2 : length cs2 = length (firstn 2 (dimensional_calibrations x))).
  { apply (cals_at_length h). apply cals_at_firstn, Hcs. }
  exists (news ++ [NumBuf rd] ++ map CalObj cs2 ++ [CalObj (xv_intensity v)]).
  eexists.
  replace (h ++ BoolBuf zeros :: loop_cells shp zeros regions ++
             news ++ [NumBuf rd] ++ map CalObj cs2 ++ [CalObj (xv_intensity v)])
    with (h3 ++ map CalObj cs2 ++ [CalObj (xv_intensity v)])
    by (subst h3 h2; rewrite <- !app_assoc; reflexivity).
  split; [reflexivity|]. split; [|split; [|split]].
  - unfold snapshot.
    cbn [data base dimensional_calibrations intensity_calibration data_shape shape].
    rewrite (proj2 (num_at_lookup _ (length (h2 ++ news)) rd)); cycle 1.
    { apply lookup_grow. subst h3. apply lookup_new. }
    rewrite <- Hlen2, cals_at_new.
    rewrite (proj2 (cal_at_lookup _ (length h3 + length cs2) (xv_intensity v))); cycle 1.
    { rewrite app_assoc.
      replace (length h3 + length cs2) with (length (h3 ++ map CalObj cs2))
        by (rewrite length_app, length_map; reflexivity).
      apply lookup_new. }
    reflexivity.
  - cbn [data base]. subst h2. rewrite !length_app. simpl. lia.
  - cbn [dimensional_calibrations]. apply List.Forall_forall. intros l Hl.
    apply in_seq in Hl. rewrite Hk, length_app in Hl. lia.
  - cbn [intensity_calibration]. rewrite Hk, length_app. lia.
Qed.

Lemma execute_observe self x regions h v :
  snapshot h x = Some v ->
  observe (execute add zero self (Some {| xdata := Some x |}) (Some regions) h) =
  reduce_value add zero v regions.
Proof.
  intros Hv. unfold reduce_value.
  destruct (Nat.eqb_spec (prod (firstn 2 (xv_shape v))) 0) as [E|E].
  - rewrite execute_fail; [reflexivity|].
    apply snapshot_inv in Hv as (_ & _ & _ & <-). exact E.
  - destruct (execute_run self x regions h v Hv E) as (news & x' & -> & Hs & _).
    unfold observe. cbn [fst snd new_xdata]. now rewrite Hs.
Qed.

(** *** The store only grows *)

Lemma grows_ret {A} (a : A) : grows (ret a).
Proof. intros h. reflexivity. Qed.

Lemma grows_raise {A} (e : exn) : grows (raise (A := A) e).
Proof. intros h. reflexivity. Qed.

Lemma grows_alloc (o : object T) : grows (alloc o).
Proof. intros h. now exists [o]. Qed.

Lemma grows_read_num l : grows (read_num l).
Proof. intros h. unfold read_num. now destruct (h !! l) as [[]|]. Qed.

Lemma grows_read_bool l : grows (read_bool l).
Proof. intros h. unfold read_bool. now destruct (h !! l) as [[]|]. Qed.

Lemma grows_read_idx l : grows (read_idx l).
Proof. intros h. unfold read_idx. now destruct (h !! l) as [[]|]. Qed.

Lemma grows_read_cal l : grows (read_cal (T := T) l).
Proof. intros h. unfold read_cal. now destruct (h !! l) as [[]|]. Qed.

Lemma grows_bind {A B} (m : M (heap T) A) (k : A -> M (heap T) B) :
  grows m -> (forall a, grows (k a)) -> grows (bind m k).
Proof.
  intros Hm Hk h. unfold bind. specialize (Hm h).
  destruct (m h) as [[a|e] h']; simpl in *.
  - etransitivity; [exact Hm|apply Hk].
  - exact Hm.
Qed.

Lemma grows_assert_some {A} (o : option A) : grows (assert_some o).
Proof. destruct o; [apply grows_ret|apply grows_raise]. Qed.

Lemma grows_for_each {A B} (body : A -> B -> M (heap T) A) (xs : list B) :
  (forall acc x, grows (body acc x)) -> forall acc, grows (for_each body acc xs).
Proof.
  intros Hb. induction xs as [|x xs IH]; intros acc; simpl.
  - apply grows_ret.
  - apply grows_bind; [apply Hb|exact IH].
Qed.

Lemma grows_for_list {A B} (f : A -> M (heap T) B) (xs : list A) :
  (forall x, grows (f x)) -> grows (for_list f xs).
Proof.
  intros Hf. induction xs as [|x xs IH]; simpl.
  - apply grows_ret.
  - apply grows_bind; [apply Hf|]. intros y.
    apply grows_bind; [exact IH|]. intros ys. apply grows_ret.
Qed.

Create HintDb grows.
#[local] Hint Resolve grows_ret grows_raise grows_alloc grows_read_num grows_read_bool
  grows_read_idx grows_read_cal grows_assert_some : grows.

Ltac grows_step :=
  match goal with
  | |- grows (bind _ _) => apply grows_bind; [|intros ?]
  | |- grows (if ?b then _ else _) => destruct b
  | |- grows (match ?x with _ => _ end) => destruct x
  | |- grows (for_each _ _ _) => apply grows_for_each; intros ? ?
  | |- grows (for_list _ _) => apply grows_for_list; intros ?
  | |- grows _ => solve [auto with grows]
  end.

Lemma grows_np_reshape a newshape : grows (np_reshape a newshape).
Proof. unfold np_reshape. repeat grows_step. Qed.

Lemma grows_np_zeros shp : grows (np_zeros shp).
Proof. unfold np_zeros. repeat grows_step. Qed.

Lemma grows_get_mask region shp : grows (get_mask region shp).
Proof. unfold get_mask. repeat grows_step. Qed.

Lemma grows_np_logical_or a b : grows (np_logical_or a b).
Proof. unfold np_logical_or. repeat grows_step. Qed.

Lemma grows_np_any a : grows (np_any a).
Proof. unfold np_any. repeat grows_step. Qed.

Lemma grows_np_arange n : grows (np_arange n).
Proof. unfold np_arange. repeat grows_step. Qed.

Lemma grows_getitem_bool a m : grows (getitem_bool a m).
Proof. unfold getitem_bool. repeat grows_step. Qed.

Lemma grows_getitem_last a ind : grows (getitem_last zero a ind).
Proof. unfold getitem_last. repeat grows_step. Qed.

Lemma grows_np_sum_last a : grows (np_sum_last add zero a).
Proof. unfold np_sum_last. repeat grows_step. Qed.

Lemma grows_copy_calibration l : grows (copy_calibration l).
Proof. unfold copy_calibration. repeat grows_step. Qed.

#[local] Hint Resolve grows_np_reshape grows_np_zeros grows_get_mask grows_np_logical_or
  grows_np_any grows_np_arange grows_getitem_bool grows_getitem_last
  grows_np_sum_last grows_copy_calibration : grows.

Lemma grows_new_data_and_metadata nd dims i : grows (new_data_and_metadata nd dims i).
Proof. unfold new_data_and_metadata. repeat grows_step. Qed.

#[local] Hint Resolve grows_new_data_and_metadata : grows.

Lemma grows_execute self src map_regions : grows (execute add zero self src map_regions).
Proof. unfold execute. repeat grows_step. Qed.

(** *** After the three asserts nothing raises AssertionError *)

Lemma passes_ret {A} (a : A) : passes_asserts (ret a).
Proof. intros h. discriminate. Qed.

Lemma passes_raise {A} (e : exn) : e <> AssertionError -> passes_asserts (raise (A := A) e).
Proof. intros He h [= E]. now apply He. Qed.

Lemma passes_alloc (o : object T) : passes_asserts (alloc o).
Proof. intros h. discriminate. Qed.

Lemma passes_read_num l : passes_asserts (read_num l).
Proof. intros h. unfold read_num. now destruct (h !! l) as [[]|]. Qed.

Lemma passes_read_bool l : passes_asserts (read_bool l).
Proof. intros h. unfold read_bool. now destruct (h !! l) as [[]|]. Qed.

Lemma passes_read_idx l : passes_asserts (read_idx l).
Proof. intros h. unfold read_idx. now destruct (h !! l) as [[]|]. Qed.

Lemma passes_read_cal l : passes_asserts (read_cal (T := T) l).
Proof. intros h. unfold read_cal. now destruct (h !! l) as [[]|]. Qed.

Lemma passes_bind {A B} (m : M (heap T) A) (k : A -> M (heap T) B) :
  passes_asserts m -> (forall a, passes_asserts (k a)) -> passes_asserts (bind m k).
Proof.
  intros Hm Hk h. unfold bind. specialize (Hm h).
  destruct (m h) as [[a|e] h1]; simpl in *; [apply Hk|].
  intros [= ->]. now apply Hm.
Qed.

Lemma passes_bind_ret {A B} (a : A) (k : A -> M (heap T) B) :
  passes_asserts (k a) -> passes_asserts (bind (ret a) k).
Proof. intros Hk h. apply Hk. Qed.

Lemma passes_for_each {A B} (body : A -> B -> M (heap T) A) (xs : list B) :
  (forall acc x, passes_asserts (body acc x)) ->
  forall acc, passes_asserts (for_each body acc xs).
Proof.
  intros Hb. induction xs as [|x xs IH]; intros acc; simpl.
  - apply passes_ret.
  - apply passes_bind; [apply Hb|exact IH].
Qed.

Lemma passes_for_list {A B} (f : A -> M (heap T) B) (xs : list A) :
  (forall x, passes_asserts (f x)) -> passes_asserts (for_list f xs).
Proof.
  intros Hf. induction xs as [|x xs IH]; simpl.
  - apply passes_ret.
  - apply passes_bind; [apply Hf|]. intros y.
    apply passes_bind; [exact IH|]. intros ys. apply passes_ret.
Qed.

Ltac passes_step :=
  match goal with
  | |- passes_asserts (bind (ret _) _) => apply passes_bind_ret
  | |- passes_asserts (bind _ _) => apply passes_bind; [|intros ?]
  | |- passes_asserts (ret _) => apply passes_ret
  | |- passes_asserts (raise _) => apply passes_raise; discriminate
  | |- passes_asserts (alloc _) => apply passes_alloc
  | |- passes_asserts (read_num _) => apply passes_read_num
  | |- passes_asserts (read_bool _) => apply passes_read_bool
  | |- passes_asserts (read_idx _) => apply passes_read_idx
  | |- passes_asserts (read_cal _) => apply passes_read_cal
  | |- passes_asserts (assert_some (Some _)) => apply passes_ret
  | |- passes_asserts (for_each _ _ _) => apply passes_for_each; intros ? ?
  | |- passes_asserts (for_list _ _) => apply passes_for_list; intros ?
  | |- passes_asserts (if ?b then _ else _) => destruct b
  | |- passes_asserts (match ?x with _ => _ end) => destruct x
  end.

(** With [src], [map_regions] and [src.xdata] given, the three asserts
    pass and nothing after them raises AssertionError. *)
Lemma execute_passes_asserts self x regions :
  passes_asserts (execute add zero self (Some {| xdata := Some x |}) (Some regions)).
Proof.
  unfold execute, np_reshape, np_zeros, get_mask, np_logical_or, np_any, np_arange,
    getitem_bool, getitem_last, np_sum_last, new_data_and_metadata, copy_calibration.
  repeat (cbn [assert_some xdata]; passes_step).
Qed.

Lemma grows_run {A} (m : M (heap T) A) h r h' :
  grows m -> m h = (r, h') -> exists news, h' = h ++ news.
Proof. intros G E. specialize (G h). rewrite E in G. exact G. Qed.

Lemma grows_length {A} (m : M (heap T) A) h r h' :
  grows m -> m h = (r, h') -> length h <= length h'.
Proof.
  intros G E. destruct (grows_run m h r h' G E) as [news ->].
  rewrite length_app. lia.
Qed.

Lemma np_reshape_heap a newshape h r h' : np_reshape a newshape h = (r, h') -> h' = h.
Proof.
  unfold np_reshape.
  destruct (length _) as [|[|?]]; repeat match goal with |- context [if ?b then _ else _] => destruct b end;
    intros [= _ <-]; reflexivity.
Qed.

Lemma np_sum_last_fresh a h nd h' :
  np_sum_last add zero a h = (Ok nd, h') -> base nd = length h /\ length h' = S (length h).
Proof.
  unfold np_sum_last, read_num, bind, alloc, ret.
  destruct (h !! base a) as [[]|]; intros [= <- <-]; try discriminate.
  rewrite length_app. simpl. split; [reflexivity|lia].
Qed.

Lemma select_and_sum_fresh (any : bool) (data_ md : ndarray) h nd h' :
  (if any
   then a <- np_arange (prod (shape md)) ;;
        ind <- getitem_bool a (ravel md) ;;
        sel <- getitem_last zero data_ ind ;;
        np_sum_last add zero sel
   else np_sum_last add zero data_) h = (Ok nd, h') ->
  length h <= base nd < length h'.
Proof.
  destruct any; intros E.
  - apply bind_ok_inv in E as (a & h1 & E1 & E).
    apply bind_ok_inv in E as (ind & h2 & E2 & E).
    apply bind_ok_inv in E as (sel & h3 & E3 & E).
    apply grows_length in E1, E2, E3; auto with grows.
    apply np_sum_last_fresh in E as [-> ->]. lia.
  - apply np_sum_last_fresh in E as [-> ->]. lia.
Qed.

Lemma grows_select_and_sum (any : bool) (data_ md : ndarray) :
  grows (if any
         then a <- np_arange (prod (shape md)) ;;
              ind <- getitem_bool a (ravel md) ;;
              sel <- getitem_last zero data_ ind ;;
              np_sum_last add zero sel
         else np_sum_last add zero data_).
Proof. repeat grows_step. Qed.

Lemma new_data_and_metadata_data nd dims i h x h' :
  new_data_and_metadata nd dims i h = (Ok x, h') -> data x = nd /\ length h <= length h'.
Proof.
  intros E. split.
  - unfold new_data_and_metadata in E.
    apply bind_ok_inv in E as (ds & h1 & _ & E).
    apply bind_ok_inv in E as (l & h2 & _ & E).
    now injection E as <- _.
  - eapply grows_length; [|exact E]. auto with grows.
Qed.

Lemma loop_cells_lookup shp regions : forall m i region,
  regions !! i = Some region ->
  loop_cells shp m regions !! (2 * i) = Some (BoolBuf (mask_table region shp)).
Proof.
  induction regions as [|g regions IH]; intros m i region; [discriminate|].
  destruct i as [|i]; simpl.
  - now intros [= ->].
  - intros H. replace (i + S (i + 0)) with (S (2 * i)) by lia. simpl.
    now apply IH.
Qed.

End StoreFacts.

(** * The reduced elements and the sums of the specification *)

Section SumFacts.
Context {T : Type} (add : T -> T -> T) (zero : T).

Lemma prod_2 a b : prod [a; b] = a * b.
Proof. simpl. lia. Qed.

Lemma flat_lt R C r c : r < R -> c < C -> r * C + c < R * C.
Proof.
  intros Hr Hc. assert (E : S r * C <= R * C) by (apply Nat.mul_le_mono_r; lia).
  simpl in E. lia.
Qed.

Lemma existsb_ext_in {A} (f g : A -> bool) (l : list A) :
  (forall x, In x l -> f x = g x) -> existsb f l = existsb g l.
Proof.
  induction l as [|x l IH]; intros E; simpl; [reflexivity|].
  rewrite (E x) by now left. rewrite IH; [reflexivity|].
  intros y Hy. apply E. now right.
Qed.

Lemma existsb_ext_in_false {A} (f : A -> bool) (l : list A) :
  (forall x, In x l -> f x = false) -> existsb f l = false.
Proof.
  intros E. rewrite (existsb_ext_in f (fun _ => false) l E).
  clear E. induction l as [|x l IH]; simpl; [reflexivity|exact IH].
Qed.

Lemma existsb_map {A B} (f : B -> bool) (g : A -> B) (l : list A) :
  existsb f (map g l) = existsb (fun x => f (g x)) l.
Proof. induction l as [|x l IH]; simpl; [reflexivity|]. now rewrite IH. Qed.

(** The mask after the loop, read at the flat position of a pixel. *)
Lemma combined_2d regions H W :
  combined [H; W] regions =
  map (fun i => existsb (fun region => covers region [H; W] (unravel_index [H; W] i)) regions)
      (seq 0 (H * W)).
Proof. rewrite combined_pointwise. now rewrite prod_2. Qed.

Lemma selects_flat regions H W p :
  In p (pixels H W) ->
  existsb (fun region => covers region [H; W] (unravel_index [H; W] (fst p * W + snd p)))
          regions = selects regions H W p.
Proof.
  intros Hp. apply pixels_In in Hp as [_ Hw].
  unfold selects. now rewrite unravel_pixel.
Qed.

Lemma any_combined regions H W :
  existsb id (combined [H; W] regions) = existsb (selects regions H W) (pixels H W).
Proof.
  rewrite combined_2d, existsb_id_map, <- pixels_flat, existsb_map.
  apply existsb_ext_in. intros p Hp. now apply selects_flat.
Qed.

Lemma where_true_combined regions H W :
  where_true (seq 0 (length (combined [H; W] regions))) (combined [H; W] regions) =
  map (fun p => fst p * W + snd p) (List.filter (selects regions H W) (pixels H W)).
Proof.
  rewrite length_combined, prod_2, combined_2d, where_true_map.
  rewrite <- pixels_flat, filter_map_swap. f_equal.
  apply filter_ext_in. intros p Hp. now apply selects_flat.
Qed.

Lemma length_reduced outer n d m : length (reduced add zero outer n d m) = outer.
Proof.
  unfold reduced, sum_last.
  destruct (existsb id m); now rewrite length_map, length_seq.
Qed.

Lemma reduced_none outer n d m :
  existsb id m = false -> reduced add zero outer n d m = sum_last add zero outer n d.
Proof. intros E. unfold reduced. now rewrite E. Qed.

(** With a pixel selected, the element (r, c) of the result is the sum
    over the selected pixels. *)
Lemma reduced_region_sum regions R C H W d r c :
  existsb id (combined [H; W] regions) = true -> r < R -> c < C ->
  nth (r * C + c) (reduced add zero (R * C) (H * W) d (combined [H; W] regions)) zero =
  region_sum add zero regions R C H W d r c.
Proof.
  intros Hany Hr Hc. unfold reduced. rewrite Hany. cbv zeta.
  rewrite sum_last_take_last, nth_map_seq by now apply flat_lt.
  rewrite where_true_combined, map_map. unfold region_sum. f_equal.
  apply map_ext. intros p. unfold item. now rewrite ravel_4d.
Qed.

(** With no pixel selected, it is the sum over the whole frame. *)
Lemma reduced_frame_sum R C H W d m r c :
  existsb id m = false -> length d = R * C * H * W -> r < R -> c < C ->
  nth (r * C + c) (reduced add zero (R * C) (H * W) d m) zero =
  frame_sum add zero R C H W d r c.
Proof.
  intros Hany Hlen Hr Hc. rewrite reduced_none by exact Hany.
  unfold sum_last. rewrite nth_map_seq by now apply flat_lt.
  rewrite (chunk_nth zero); cycle 1.
  { pose proof (flat_lt R C r c Hr Hc) as E.
    assert (E' : S (r * C + c) * (H * W) <= (R * C) * (H * W))
      by (apply Nat.mul_le_mono_r; lia).
    simpl in E'. lia. }
  rewrite <- pixels_flat, map_map. unfold frame_sum. f_equal.
  apply map_ext. intros p. unfold item. now rewrite ravel_4d.
Qed.

Lemma filter_none {A} (f : A -> bool) (l : list A) :
  (forall x, In x l -> f x = false) -> List.filter f l = [].
Proof.
  induction l as [|x l IH]; intros Hf; simpl; [reflexivity|].
  rewrite (Hf x) by now left. apply IH. intros y Hy. apply Hf. now right.
Qed.

Lemma filter_singleton {A} (f : A -> bool) (l : list A) (a : A) :
  List.NoDup l -> In a l -> (forall x, In x l -> f x = true <-> x = a) ->
  List.filter f l = [a].
Proof.
  induction l as [|x l IH]; intros Hnd Hin Hf; [contradiction|].
  apply List.NoDup_cons_iff in Hnd as [Hx Hnd]. simpl.
  destruct (f x) eqn:Efx.
  - assert (x = a) as -> by (apply Hf; [now left|exact Efx]).
    f_equal. apply filter_none. intros y Hy.
    destruct (f y) eqn:Efy; [|reflexivity].
    exfalso. apply Hx. replace a with y; [exact Hy|].
    apply Hf; [now right|exact Efy].
  - destruct Hin as [->|Hin].
    + rewrite (proj2 (Hf a (or_introl eq_refl)) eq_refl) in Efx. discriminate.
    + apply IH; auto. intros y Hy. apply Hf. now right.
Qed.

Lemma pixels_NoDup H W : List.NoDup (pixels H W).
Proof.
  apply (List.NoDup_map_inv (fun p => fst p * W + snd p)).
  rewrite pixels_flat. apply List.seq_NoDup.
Qed.
End SumFacts.

(** * The claims *)

Section Claims.
Context {T : Type} (add : T -> T -> T) (zero : T).
Implicit Types (v : xvalue T) (x : XData) (regions : list Graphic).

(** A 4D source with a scan plane that is not empty is reduced to an
    R x C array whose elements are those of [reduced]. *)
Lemma execute_returns self x v (h : heap T) regions R C H W f :
  source_4d h x v R C H W -> 0 < R -> 0 < C ->
  (forall r c, r < R -> c < C ->
     nth (r * C + c)
         (reduced add zero (R * C) (H * W) (xv_data v) (combined [H; W] regions)) zero
     = f r c) ->
  returns zero (execute add zero self (Some {| xdata := Some x |}) (Some regions) h) R C f.
Proof.
  intros (Hv & Hshape & Hlen) HR HC Hf.
  destruct (execute_run add zero self x regions h v Hv) as (news & x' & -> & Hs & _).
  { rewrite Hshape. cbn [firstn]. rewrite prod_2. nia. }
  rewrite Hshape in *. cbn [firstn skipn] in *. rewrite !prod_2 in *.
  eexists _, x', _. cbn [fst snd new_xdata].
  split; [reflexivity|]. split; [reflexivity|]. split; [exact Hs|].
  cbn [xv_shape xv_data]. split; [reflexivity|]. split; [apply length_reduced|].
  intros r c Hr Hc. unfold item. rewrite ravel_2d. now apply Hf.
Qed.

(** C1 (amended: the scan plane is not empty).  For a 4D source of shape
    (R, C, H, W) with R >= 1 and C >= 1, and regions whose combined mask
    selects at least one pixel, [execute] returns an R x C result with
    result[r,c] the sum of source[r,c,h,w] over exactly the pixels (h, w)
    the combined mask selects, pixel (h, w) being the flat position h*W+w
    of the flattened frame. *)
Theorem execute_region_sum self x v (h : heap T) regions R C H W :
  source_4d h x v R C H W -> 0 < R -> 0 < C ->
  (exists p, In p (pixels H W) /\ selects regions H W p = true) ->
  returns zero (execute add zero self (Some {| xdata := Some x |}) (Some regions) h)
          R C (region_sum add zero regions R C H W (xv_data v)).
Proof.
  intros Hsrc HR HC Hsel. apply (execute_returns self x v h regions R C H W); auto.
  intros r c Hr Hc. apply reduced_region_sum; auto.
  rewrite any_combined. apply existsb_exists. exact Hsel.
Qed.

(** C2 (amended: the scan plane is not empty).  For a 4D source of shape
    (R, C, H, W) with R >= 1 and C >= 1 and the empty list of regions,
    [execute] returns an R x C result with result[r,c] the sum of all H*W
    elements of source[r,c,:,:]. *)
Theorem execute_frame_sum self x v (h : heap T) R C H W :
  source_4d h x v R C H W -> 0 < R -> 0 < C ->
  returns zero (execute add zero self (Some {| xdata := Some x |}) (Some []) h)
          R C (frame_sum add zero R C H W (xv_data v)).
Proof.
  intros Hsrc HR HC. apply (execute_returns self x v h [] R C H W); auto.
  intros r c Hr Hc. apply reduced_frame_sum; auto.
  - rewrite any_combined. now apply existsb_ext_in_false.
  - apply Hsrc.
Qed.

(** C3.  For a 4D source and regions whose combined mask selects no pixel,
    [execute] gives exactly what it gives for the empty list of regions:
    the same exception, or a result with the same shape, elements and
    calibrations; with a scan plane that is not empty that result is the
    full-frame sum. *)
Theorem execute_all_false_fallback self x v (h : heap T) regions R C H W :
  source_4d h x v R C H W ->
  (forall p, In p (pixels H W) -> selects regions H W p = false) ->
  observe (execute add zero self (Some {| xdata := Some x |}) (Some regions) h) =
  observe (execute add zero self (Some {| xdata := Some x |}) (Some []) h) /\
  (0 < R -> 0 < C ->
   returns zero (execute add zero self (Some {| xdata := Some x |}) (Some regions) h)
           R C (frame_sum add zero R C H W (xv_data v))).
Proof.
  intros Hsrc Hnone.
  assert (Hany : existsb id (combined [H; W] regions) = false).
  { rewrite any_combined. now apply existsb_ext_in_false. }
  split.
  - destruct Hsrc as (Hv & Hshape & _).
    rewrite !(execute_observe add zero self x _ h v Hv).
    unfold reduce_value. rewrite Hshape. cbn [firstn skipn].
    rewrite !reduced_none; auto.
    rewrite any_combined. now apply existsb_ext_in_false.
  - intros HR HC. apply (execute_returns self x v h regions R C H W); auto.
    intros r c Hr Hc. apply reduced_frame_sum; auto. apply Hsrc.
Qed.

(** The sum of one element is that element when the zero of the dtype is
    a left identity. *)
Lemma sum_list_one (a : T) : (forall b, add zero b = b) -> sum_list add zero [a] = a.
Proof. intros H0. apply H0. Qed.

Lemma single_pixel_filter region H W h0 w0 :
  h0 < H -> w0 < W ->
  (forall i j, i < H -> j < W -> covers region [H; W] [i; j] = true <-> i = h0 /\ j = w0) ->
  List.filter (selects [region] H W) (pixels H W) = [(h0, w0)].
Proof.
  intros Hh Hw Hcov. apply filter_singleton.
  - apply pixels_NoDup.
  - unfold pixels. rewrite in_prod_iff, !in_seq. lia.
  - intros [i j] Hp. apply pixels_In in Hp as [Hi Hj].
    unfold selects. cbn [existsb fst snd]. rewrite orb_false_r, (Hcov i j Hi Hj).
    split; [intros [-> ->]; reflexivity|intros [= -> ->]; auto].
Qed.

(** One region that selects exactly the pixel (h0, w0): the sum over the
    selected pixels is the one element source[r,c,h0,w0]. *)
Lemma execute_one_pixel self x v (h : heap T) region R C H W h0 w0 :
  (forall b, add zero b = b) ->
  source_4d h x v R C H W -> 0 < R -> 0 < C -> h0 < H -> w0 < W ->
  (forall i j, i < H -> j < W -> covers region [H; W] [i; j] = true <-> i = h0 /\ j = w0) ->
  returns zero (execute add zero self (Some {| xdata := Some x |}) (Some [region]) h)
          R C (fun r c => item zero [R; C; H; W] (xv_data v) [r; c; h0; w0]).
Proof.
  intros H0 Hsrc HR HC Hh Hw Hcov.
  apply (execute_returns self x v h [region] R C H W); auto.
  intros r c Hr Hc.
  pose proof (single_pixel_filter region H W h0 w0 Hh Hw Hcov) as Hf.
  rewrite reduced_region_sum; auto.
  - unfold region_sum. rewrite Hf. cbn [map fst snd]. now apply sum_list_one.
  - rewrite any_combined. apply existsb_exists. exists (h0, w0). split.
    + unfold pixels. rewrite in_prod_iff, !in_seq. lia.
    + assert (Hin : In (h0, w0) (List.filter (selects [region] H W) (pixels H W)))
        by (rewrite Hf; now left).
      now apply filter_In in Hin.
Qed.

(** C6.  For a 4D source whose store is well formed and any regions: when
    [execute] leaves a result, its dimensional calibrations have the values
    of the first two of the source and its intensity calibration the value
    of the source's, and they are fresh objects, none of them one of the
    source's calibration objects; it leaves none only for an empty scan
    plane. *)
Theorem execute_calibrations self x v (h : heap T) regions R C H W :
  source_4d h x v R C H W ->
  match fst (execute add zero self (Some {| xdata := Some x |}) (Some regions) h) with
  | Ok self' =>
      exists x' v',
        new_xdata self' = Some x' /\
        snapshot (snd (execute add zero self (Some {| xdata := Some x |}) (Some regions) h)) x'
          = Some v' /\
        xv_dims v' = firstn 2 (xv_dims v) /\
        xv_intensity v' = xv_intensity v /\
        List.Forall (fun l => h !! l = None /\
                         ~ In l (intensity_calibration x :: dimensional_calibrations x))
               (intensity_calibration x' :: dimensional_calibrations x')
  | Raise e => R = 0 \/ C = 0
  end.
Proof.
  intros (Hv & Hshape & _).
  destruct (Nat.eq_dec (prod (firstn 2 (xv_shape v))) 0) as [E|E].
  - rewrite execute_fail.
    + rewrite Hshape in E. cbn [firstn] in E. rewrite prod_2 in E. cbn [fst]. nia.
    + apply snapshot_inv in Hv as (_ & _ & _ & <-). exact E.
  - destruct (execute_run add zero self x regions h v Hv E)
      as (news & x' & -> & Hs & _ & Hd & Hi).
    cbn [fst snd]. eexists x', _. split; [reflexivity|]. split; [exact Hs|].
    cbn [xv_dims xv_intensity]. split; [reflexivity|]. split; [reflexivity|].
    assert (Hfresh : forall l, length h <= l ->
              h !! l = None /\ ~ In l (intensity_calibration x :: dimensional_calibrations x)).
    { intros l Hl. split; [now apply lookup_ge_None|].
      apply snapshot_inv in Hv as (_ & Hcs & Hc & _).
      intros [<-|Hin].
      - apply cal_at_lookup in Hc. apply lookup_lt_Some in Hc. lia.
      - apply (cals_at_In h _ _ _ Hcs) in Hin as [c Hin].
        apply lookup_lt_Some in Hin. lia. }
    constructor; [now apply Hfresh|].
    eapply List.Forall_impl; [|exact Hd]. intros l Hl. now apply Hfresh.
Qed.

(** C7.  Two calls on sources with the same shape, elements and
    calibrations and with the same regions have the same outcome: the same
    exception, or results with the same shape, elements and calibrations.
    Neither the state of the object (the result of an earlier call) nor
    what else the store holds has any influence. *)
Theorem execute_deterministic self1 self2 x1 x2 v (h1 h2 : heap T) regions :
  snapshot h1 x1 = Some v -> snapshot h2 x2 = Some v ->
  observe (execute add zero self1 (Some {| xdata := Some x1 |}) (Some regions) h1) =
  observe (execute add zero self2 (Some {| xdata := Some x2 |}) (Some regions) h2).
Proof.
  intros H1 H2.
  now rewrite (execute_observe add zero self1 x1 regions h1 v H1),
              (execute_observe add zero self2 x2 regions h2 v H2).
Qed.

Lemma length_loop_cells shp regions : forall m,
  length (loop_cells (T := T) shp m regions) = 2 * length regions.
Proof.
  induction regions as [|g regions IH]; intros m; simpl; [reflexivity|].
  rewrite IH. lia.
Qed.

(** C8.  Whatever the arguments and the outcome, [execute] only adds
    objects to the store: every object there before the call (the buffer
    of the source, its calibrations) is there unchanged after it.  When it
    returns, the masks [get_mask] gave are in the store as they were made,
    and the array of the result is an object allocated after all of them,
    so none of the store before the call and none of the masks. *)
Theorem execute_no_mutation self src map_regions (h : heap T) r h' :
  execute add zero self src map_regions h = (r, h') ->
  (exists news, h' = h ++ news) /\
  (forall self', r = Ok self' ->
     exists s x regions x',
       src = Some s /\ xdata s = Some x /\ map_regions = Some regions /\
       new_xdata self' = Some x' /\
       length h + 1 + 2 * length regions <= base (data x') < length h' /\
       forall i region, regions !! i = Some region ->
         h' !! (length h + 1 + 2 * i) =
         Some (BoolBuf (mask_table region (skipn 2 (data_shape x))))).
Proof.
  intros E. split; [eapply grows_run; [apply grows_execute|exact E]|].
  intros self' ->. unfold execute in E.
  destruct src as [s|]; [|discriminate E].
  destruct map_regions as [regions|]; [|discriminate E].
  destruct s as [[x|]]; [|discriminate E].
  repeat (cbn [assert_some xdata] in E; rewrite bind_ret in E).
  apply bind_ok_inv in E as (data_ & h1 & E1 & E).
  apply np_reshape_heap in E1 as ->.
  cbn [assert_some] in E. rewrite bind_ret in E.
  set (shp := skipn 2 (data_shape x)) in *.
  set (zeros := repeat false (prod shp)).
  assert (Hz : np_zeros shp h = (Ok {| shape := shp; base := length h |}, h ++ [BoolBuf zeros]))
    by reflexivity.
  rewrite (bind_ok _ _ _ _ _ Hz) in E.
  destruct (loop_run shp regions {| shape := shp; base := length h |} zeros
              (h ++ [BoolBuf zeros])) as (md & Hloop & _ & _).
  { apply lookup_new. }
  { reflexivity. }
  unfold loop_body in Hloop. rewrite (bind_ok _ _ _ _ _ Hloop) in E.
  set (h2 := (h ++ [BoolBuf zeros]) ++ loop_cells shp zeros regions) in *.
  assert (Hlen2 : length h2 = length h + 1 + 2 * length regions).
  { subst h2. rewrite !length_app, length_loop_cells. simpl. lia. }
  apply bind_ok_inv in E as (any & h3 & E3 & E).
  apply bind_ok_inv in E as (nd & h4 & E4 & E).
  apply bind_ok_inv in E as (x' & h5 & E5 & E).
  injection E as <- <-.
  destruct (grows_run _ _ _ _ (grows_np_any _) E3) as [n3 ->].
  destruct (grows_run _ _ _ _ (grows_select_and_sum add zero _ _ _) E4) as [n4 ->].
  destruct (grows_run _ _ _ _ (grows_new_data_and_metadata _ _ _) E5) as [n5 ->].
  apply select_and_sum_fresh in E4 as [Hlo Hhi].
  apply new_data_and_metadata_data in E5 as [Hdata _].
  rewrite length_app in Hlo.
  exists {| xdata := Some x |}, x, regions, x'. cbn [new_xdata xdata].
  repeat split; try reflexivity.
  - rewrite Hdata. lia.
  - rewrite Hdata, length_app. lia.
  - intros i region Hi. do 3 apply lookup_grow. subst h2.
    replace (length h + 1 + 2 * i) with (length (h ++ [BoolBuf zeros]) + 2 * i)
      by (rewrite length_app; reflexivity).
    rewrite lookup_app_r by lia.
    replace (length (h ++ [BoolBuf zeros]) + 2 * i - length (h ++ [BoolBuf zeros]))
      with (2 * i) by lia.
    now apply loop_cells_lookup.
Qed.

(** The mask after the loop depends only on which regions are in the
    list. *)
Lemma combined_same_regions shp l1 l2 :
  (forall g, In g l1 <-> In g l2) -> combined shp l1 = combined shp l2.
Proof.
  intros Hsame. rewrite !combined_pointwise. apply map_ext. intros i.
  apply eq_true_iff_eq. rewrite !existsb_exists.
  split; intros (g & Hg & Hc); exists g; (split; [now apply Hsame|exact Hc]).
Qed.

(** C9.  For a source whose store is well formed and two lists of regions
    that are permutations of each other, or more generally hold the same
    regions whatever the order and the number of times each occurs,
    [execute] has the same outcome: the same exception, or results with the
    same shape, elements and calibrations. *)
Theorem execute_regions_as_set self x v (h : heap T) l1 l2 :
  snapshot h x = Some v ->
  Permutation l1 l2 \/ (forall g, In g l1 <-> In g l2) ->
  observe (execute add zero self (Some {| xdata := Some x |}) (Some l1) h) =
  observe (execute add zero self (Some {| xdata := Some x |}) (Some l2) h).
Proof.
  intros Hv Hsame.
  assert (Hset : forall g, In g l1 <-> In g l2).
  { destruct Hsame as [Hp|Hs]; [|exact Hs].
    intros g. split; intros Hg.
    - now apply (Permutation_in g Hp).
    - now apply (Permutation_in g (Permutation_sym Hp)). }
  rewrite !(execute_observe add zero self x _ h v Hv).
  unfold reduce_value. now rewrite (combined_same_regions _ l1 l2 Hset).
Qed.

(** C10.  [execute] asserts that [src], [map_regions] and [src.xdata] are
    not None before anything else: with None for one of them it raises
    AssertionError and the store is as it was, nothing allocated.  An empty
    list of regions is not None. *)
Theorem execute_asserts self (s : DataSource) x regions map_regions (h : heap T) :
  execute add zero self None map_regions h = (Raise AssertionError, h) /\
  execute add zero self (Some s) None h = (Raise AssertionError, h) /\
  execute add zero self (Some {| xdata := None |}) (Some regions) h
    = (Raise AssertionError, h) /\
  fst (execute add zero self (Some {| xdata := Some x |}) (Some []) h)
    <> Raise AssertionError.
Proof.
  repeat split; try reflexivity.
  apply execute_passes_asserts.
Qed.
End Claims.

(** C5.  For a 4D source of shape (R, C, H, W) with R >= 1 and C >= 1
    (amended: the scan plane is not empty) and one region that selects
    exactly the pixel (h0, w0), [execute] returns an R x C result with
    result[r,c] = source[r,c,h0,w0]; and for the (2,2,2,2) source filled
    with 0..15 in row-major order and the region that selects (0,0) the
    result is [[0,4],[8,12]]. *)
Theorem execute_single_pixel :
  (forall (T : Type) (add : T -> T -> T) (zero : T) self x (v : xvalue T) (h : heap T)
          region R C H W h0 w0,
     (forall b, add zero b = b) ->
     source_4d h x v R C H W -> 0 < R -> 0 < C -> h0 < H -> w0 < W ->
     (forall i j, i < H -> j < W ->
        covers region [H; W] [i; j] = true <-> i = h0 /\ j = w0) ->
     returns zero (execute add zero self (Some {| xdata := Some x |}) (Some [region]) h)
             R C (fun r c => item zero [R; C; H; W] (xv_data v) [r; c; h0; w0])) /\
  observe (execute Z.add 0%Z map4d_new (Some {| xdata := Some xdata_2222 |})
                   (Some [region_origin]) store_0_15) =
  Ok (Some {| xv_shape := [2; 2];
              xv_data := [0; 4; 8; 12]%Z;
              xv_dims := [cal_row; cal_col];
              xv_intensity := cal_counts |}).
Proof.
  split.
  - intros T add zero self x v h region R C H W h0 w0.
    apply execute_one_pixel.
  - reflexivity.
Qed.

(** C4 (amended).  The check is in [map_4D], which sets the computation
    up: for a data item whose data does not have exactly 4 dimensions it
    raises ValueError "Data item must be 4D." and leaves the document as it
    was, so no computation is created and [execute] is never reached. *)
Theorem map_4D_rejects_non_4d display channel item x map_regions (doc : Setup.Document) :
  Setup.display_data_channel display = Some channel ->
  Setup.data_item channel = Some item ->
  Setup.xdata item = Some x ->
  length (data_shape x) <> 4 ->
  Setup.map_4D display map_regions doc = (Raise (ValueError "Data item must be 4D."), doc).
Proof.
  intros Hc Hi Hx Hn. unfold Setup.map_4D. rewrite Hc.
  unfold bind. rewrite Hi. cbn [assert_some ret]. rewrite Hx.
  unfold Setup.is_data_4d. destruct (Nat.eqb_spec (length (data_shape x)) 4); [contradiction|].
  reflexivity.
Qed.

(** * The theorems at concrete inputs *)

(** The (2,2,2,2) source with the row h = 0 selected. *)
Lemma execute_region_sum_witness :
  returns 0%Z
    (execute Z.add 0%Z map4d_new (Some {| xdata := Some xdata_2222 |})
             (Some [region_row0]) store_0_15)
    2 2 (region_sum Z.add 0%Z [region_row0] 2 2 2 2 (xv_data value_2222)).
Proof.
  apply (execute_region_sum Z.add 0%Z map4d_new xdata_2222 value_2222 store_0_15
           [region_row0] 2 2 2 2).
  - repeat split; reflexivity.
  - lia.
  - lia.
  - exists (0, 0). split; [simpl; auto|reflexivity].
Defined.

(** C1 as stated fails for an empty scan plane: for the source of shape
    (0,1,1,1) and a region that selects the one pixel of the frame,
    [np.reshape] cannot infer the last dimension and [execute] raises
    ValueError; no result is returned. *)
Lemma execute_region_sum_empty_scan :
  source_4d store_empty xdata_0111 value_0111 0 1 1 1 /\
  (exists p, In p (pixels 1 1) /\ selects [region_all] 1 1 p = true) /\
  execute Z.add 0%Z map4d_new (Some {| xdata := Some xdata_0111 |})
          (Some [region_all]) store_empty
    = (Raise (ValueError "cannot reshape array"), store_empty) /\
  ~ returns 0%Z
      (execute Z.add 0%Z map4d_new (Some {| xdata := Some xdata_0111 |})
               (Some [region_all]) store_empty)
      0 1 (region_sum Z.add 0%Z [region_all] 0 1 1 1 (xv_data value_0111)).
Proof.
  split; [repeat split; reflexivity|].
  split; [exists (0, 0); split; [simpl; auto|reflexivity]|].
  split; [reflexivity|].
  intros (self' & x' & v' & E & _). discriminate E.
Qed.

Lemma execute_frame_sum_witness :
  returns 0%Z
    (execute Z.add 0%Z map4d_new (Some {| xdata := Some xdata_2222 |}) (Some []) store_0_15)
    2 2 (frame_sum Z.add 0%Z 2 2 2 2 (xv_data value_2222)).
Proof.
  apply (execute_frame_sum Z.add 0%Z map4d_new xdata_2222 value_2222 store_0_15 2 2 2 2).
  - repeat split; reflexivity.
  - lia.
  - lia.
Defined.

(** C2 as stated fails for an empty scan plane: for the source of shape
    (0,1,1,1) and no region [execute] raises ValueError instead of
    returning a result. *)
Lemma execute_frame_sum_empty_scan :
  source_4d store_empty xdata_0111 value_0111 0 1 1 1 /\
  execute Z.add 0%Z map4d_new (Some {| xdata := Some xdata_0111 |}) (Some []) store_empty
    = (Raise (ValueError "cannot reshape array"), store_empty) /\
  ~ returns 0%Z
      (execute Z.add 0%Z map4d_new (Some {| xdata := Some xdata_0111 |}) (Some [])
               store_empty)
      0 1 (frame_sum Z.add 0%Z 0 1 1 1 (xv_data value_0111)).
Proof.
  split; [repeat split; reflexivity|].
  split; [reflexivity|].
  intros (self' & x' & v' & E & _). discriminate E.
Qed.

Lemma execute_all_false_fallback_witness :
  observe (execute Z.add 0%Z map4d_new (Some {| xdata := Some xdata_2222 |})
                   (Some [region_nothing; region_nothing]) store_0_15) =
  observe (execute Z.add 0%Z map4d_new (Some {| xdata := Some xdata_2222 |})
                   (Some []) store_0_15) /\
  (0 < 2 -> 0 < 2 ->
   returns 0%Z
     (execute Z.add 0%Z map4d_new (Some {| xdata := Some xdata_2222 |})
              (Some [region_nothing; region_nothing]) store_0_15)
     2 2 (frame_sum Z.add 0%Z 2 2 2 2 (xv_data value_2222))).
Proof.
  apply (execute_all_false_fallback Z.add 0%Z map4d_new xdata_2222 value_2222 store_0_15
           [region_nothing; region_nothing] 2 2 2 2).
  - repeat split; reflexivity.
  - intros p _. reflexivity.
Defined.

Lemma map_4D_rejects_non_4d_witness :
  Setup.map_4D display_224 [] document_empty
    = (Raise (ValueError "Data item must be 4D."), document_empty).
Proof.
  apply (map_4D_rejects_non_4d display_224
           {| Setup.data_item := Some {| Setup.xdata := Some xdata_224 |} |}
           {| Setup.xdata := Some xdata_224 |} xdata_224 [] document_empty).
  - reflexivity.
  - reflexivity.
  - reflexivity.
  - simpl. lia.
Defined.

(** C4 as stated fails: [execute] has no check of the number of
    dimensions.  For the 3D source of shape (2,2,4) and no region it
    raises nothing and leaves the sums over the last axis as its result. *)
Lemma execute_accepts_3d :
  length (data_shape xdata_224) = 3 /\
  observe (execute Z.add 0%Z map4d_new (Some {| xdata := Some xdata_224 |}) (Some [])
                   store_0_15) =
  Ok (Some {| xv_shape := [2; 2];
              xv_data := [6; 22; 38; 54]%Z;
              xv_dims := [cal_row; cal_col];
              xv_intensity := cal_counts |}).
Proof. split; reflexivity. Qed.

Lemma execute_single_pixel_witness :
  returns 0%Z
    (execute Z.add 0%Z map4d_new (Some {| xdata := Some xdata_2222 |})
             (Some [region_origin]) store_0_15)
    2 2 (fun r c => item 0%Z [2; 2; 2; 2] (xv_data value_2222) [r; c; 0; 0]).
Proof.
  apply (proj1 execute_single_pixel Z Z.add 0%Z map4d_new xdata_2222 value_2222
           store_0_15 region_origin 2 2 2 2 0 0).
  - intros b. reflexivity.
  - repeat split; reflexivity.
  - lia.
  - lia.
  - lia.
  - lia.
  - intros i j Hi Hj.
    destruct i as [|[|i]]; destruct j as [|[|j]]; simpl; split;
      intros E; try lia; try discriminate E; auto.
Defined.

(** C5 as stated fails for an empty scan plane: for the source of shape
    (0,1,1,1) and the region that selects exactly the pixel (0,0)
    [execute] raises ValueError instead of returning a result. *)
Lemma execute_single_pixel_empty_scan :
  source_4d store_empty xdata_0111 value_0111 0 1 1 1 /\
  (forall i j, i < 1 -> j < 1 ->
     covers region_origin [1; 1] [i; j] = true <-> i = 0 /\ j = 0) /\
  execute Z.add 0%Z map4d_new (Some {| xdata := Some xdata_0111 |})
          (Some [region_origin]) store_empty
    = (Raise (ValueError "cannot reshape array"), store_empty) /\
  ~ returns 0%Z
      (execute Z.add 0%Z map4d_new (Some {| xdata := Some xdata_0111 |})
               (Some [region_origin]) store_empty)
      0 1 (fun r c => item 0%Z [0; 1; 1; 1] (xv_data value_0111) [r; c; 0; 0]).
Proof.
  split; [repeat split; reflexivity|].
  split.
  { intros i j Hi Hj. assert (i = 0) as -> by lia. assert (j = 0) as -> by lia.
    simpl. split; [intros _; split; reflexivity|intros _; reflexivity]. }
  split; [reflexivity|].
  intros (self' & x' & v' & E & _). discriminate E.
Qed.

Lemma execute_calibrations_witness :
  match fst (execute Z.add 0%Z map4d_new (Some {| xdata := Some xdata_2222 |})
                     (Some [region_origin]) store_0_15) with
  | Ok self' =>
      exists x' v',
        new_xdata self' = Some x' /\
        snapshot (snd (execute Z.add 0%Z map4d_new (Some {| xdata := Some xdata_2222 |})
                               (Some [region_origin]) store_0_15)) x' = Some v' /\
        xv_dims v' = [cal_row; cal_col] /\
        xv_intensity v' = cal_counts /\
        List.Forall (fun l => store_0_15 !! l = None /\ ~ In l [5; 1; 2; 3; 4])
                    (intensity_calibration x' :: dimensional_calibrations x')
  | Raise e => 2 = 0 \/ 2 = 0
  end.
Proof.
  apply (execute_calibrations Z.add 0%Z map4d_new xdata_2222 value_2222 store_0_15
           [region_origin] 2 2 2 2).
  repeat split; reflexivity.
Defined.

(** The call repeated on the object and the store the first call left. *)
Lemma execute_deterministic_witness :
  observe (execute Z.add 0%Z map4d_new (Some {| xdata := Some xdata_2222 |})
                   (Some [region_origin]) store_0_15) =
  observe (execute Z.add 0%Z map4d_after (Some {| xdata := Some xdata_2222 |})
                   (Some [region_origin]) store_after).
Proof.
  apply (execute_deterministic Z.add 0%Z map4d_new map4d_after xdata_2222 xdata_2222
           value_2222 store_0_15 store_after [region_origin]).
  - reflexivity.
  - reflexivity.
Defined.

Lemma execute_no_mutation_witness :
  (exists news, snd first_run = store_0_15 ++ news) /\
  (forall self', fst first_run = Ok self' ->
     exists s x regions x',
       Some {| xdata := Some xdata_2222 |} = Some s /\ xdata s = Some x /\
       Some [region_origin] = Some regions /\
       new_xdata self' = Some x' /\
       length store_0_15 + 1 + 2 * length regions <= base (data x') < length (snd first_run) /\
       forall i region, regions !! i = Some region ->
         snd first_run !! (length store_0_15 + 1 + 2 * i) =
         Some (BoolBuf (mask_table region (skipn 2 (data_shape x))))).
Proof.
  apply (execute_no_mutation Z.add 0%Z map4d_new (Some {| xdata := Some xdata_2222 |})
           (Some [region_origin]) store_0_15 (fst first_run) (snd first_run)).
  reflexivity.
Defined.

Lemma execute_regions_as_set_witness :
  observe (execute Z.add 0%Z map4d_new (Some {| xdata := Some xdata_2222 |})
                   (Some [region_origin; region_row0]) store_0_15) =
  observe (execute Z.add 0%Z map4d_new (Some {| xdata := Some xdata_2222 |})
                   (Some [region_row0; region_origin]) store_0_15).
Proof.
  apply (execute_regions_as_set Z.add 0%Z map4d_new xdata_2222 value_2222 store_0_15
           [region_origin; region_row0] [region_row0; region_origin]).
  - reflexivity.
  - left. apply perm_swap.
Defined.

(** * More on [execute] *)

Section MoreOnExecute.
Context {T : Type} (add : T -> T -> T) (zero : T).
Implicit Types (v : xvalue T) (x : XData) (regions : list Graphic).




(** Sums when the addition is associative and commutative with the zero
    as identity. *)
Section Additive.
Hypothesis add_0_l : forall a, add zero a = a.
Hypothesis add_comm : forall a b, add a b = add b a.
Hypothesis add_assoc : forall a b c, add a (add b c) = add (add a b) c.

Lemma fold_add_from (l : list T) : forall a,
  fold_left add l a = add a (fold_left add l zero).
Proof.
  induction l as [|b l IH]; intros a; simpl.
  - now rewrite add_comm, add_0_l.
  - rewrite (IH (add a b)), (IH (add zero b)), add_0_l. now rewrite add_assoc.
Qed.

Lemma sum_list_cons (a : T) (l : list T) :
  sum_list add zero (a :: l) = add a (sum_list add zero l).
Proof. unfold sum_list. simpl. now rewrite add_0_l, fold_add_from. Qed.

Lemma sum_filter_disjoint {A} (g : A -> T) (f1 f2 : A -> bool) (l : list A) :
  (forall a, In a l -> f1 a && f2 a = false) ->
  sum_list add zero (map g (List.filter (fun a => f1 a || f2 a) l)) =
  add (sum_list add zero (map g (List.filter f1 l)))
      (sum_list add zero (map g (List.filter f2 l))).
Proof.
  induction l as [|a l IH]; intros Hd.
  - simpl. unfold sum_list. simpl. now rewrite add_0_l.
  - assert (IH' := IH (fun b Hb => Hd b (or_intror Hb))).
    specialize (Hd a (or_introl eq_refl)). cbn [List.filter].
    destruct (f1 a), (f2 a); try discriminate Hd; cbn [orb map].
    + rewrite !sum_list_cons, IH'. apply add_assoc.
    + rewrite !sum_list_cons, IH'.
      rewrite !add_assoc. f_equal. apply add_comm.
    + exact IH'.
Qed.

(** X2.  Regions that select disjoint sets of pixels add up: when the
    regions of [A] and those of [B] each select some pixel and no pixel is
    selected by both, the result for [A ++ B] is, element by element, the
    sum of the result for [A] and the result for [B]. *)
Theorem execute_disjoint_regions self x v (h : heap T) A B R C H W :
  source_4d h x v R C H W -> 0 < R -> 0 < C ->
  (exists p, In p (pixels H W) /\ selects A H W p = true) ->
  (exists p, In p (pixels H W) /\ selects B H W p = true) ->
  (forall p, In p (pixels H W) -> selects A H W p && selects B H W p = false) ->
  exists fA fB,
    returns zero (execute add zero self (Some {| xdata := Some x |}) (Some A) h) R C fA /\
    returns zero (execute add zero self (Some {| xdata := Some x |}) (Some B) h) R C fB /\
    returns zero (execute add zero self (Some {| xdata := Some x |}) (Some (A ++ B)) h)
            R C (fun r c => add (fA r c) (fB r c)).
Proof.
  intros Hsrc HR HC HA HB Hdis.
  assert (Hret : forall regions,
            (exists p, In p (pixels H W) /\ selects regions H W p = true) ->
            returns zero (execute add zero self (Some {| xdata := Some x |}) (Some regions) h)
                    R C (region_sum add zero regions R C H W (xv_data v))).
  { intros regions Hsel. apply (execute_returns add zero self x v h regions R C H W); auto.
    intros r c Hr Hc. apply reduced_region_sum; auto.
    rewrite any_combined. apply existsb_exists. exact Hsel. }
  exists (region_sum add zero A R C H W (xv_data v)),
         (region_sum add zero B R C H W (xv_data v)).
  split; [now apply Hret|]. split; [now apply Hret|].
  destruct HA as (p & Hp & HpA).
  assert (Hsel : forall p, selects (A ++ B) H W p = selects A H W p || selects B H W p).
  { intros q. unfold selects. apply existsb_app. }
  destruct (Hret (A ++ B)) as (self' & x' & v' & E1 & E2 & E3 & E4 & E5 & E6).
  { exists p. split; [exact Hp|]. now rewrite Hsel, HpA. }
  exists self', x', v'. repeat (split; [assumption|]).
  intros r c Hr Hc. rewrite (E6 r c Hr Hc). unfold region_sum.
  rewrite (filter_ext _ _ Hsel). now apply sum_filter_disjoint.
Qed.
End Additive.

Lemma existsb_repeat_false n : existsb id (repeat false n) = false.
Proof. induction n as [|n IH]; simpl; [reflexivity|exact IH]. Qed.

(** X3.  [execute] asks for no number of dimensions: a source of any
    shape (R, C, ...) with R >= 1 and C >= 1 is, with no region, reduced to
    an R x C array whose element (r, c) is the sum of the run of all
    elements behind the position (r, c), whatever the number of trailing
    axes. *)
Theorem execute_any_rank self x v (h : heap T) R C rest :
  snapshot h x = Some v -> xv_shape v = R :: C :: rest -> 0 < R -> 0 < C ->
  returns zero (execute add zero self (Some {| xdata := Some x |}) (Some []) h)
          R C (fun r c => sum_list add zero
                            (firstn (prod rest)
                                    (skipn ((r * C + c) * prod rest) (xv_data v)))).
Proof.
  intros Hv Hshape HR HC.
  destruct (execute_run add zero self x [] h v Hv) as (news & x' & -> & Hs & _).
  { rewrite Hshape. cbn [firstn]. rewrite prod_2. nia. }
  rewrite Hshape in *. cbn [firstn skipn] in *. rewrite !prod_2 in *.
  eexists _, x', _. cbn [fst snd new_xdata].
  split; [reflexivity|]. split; [reflexivity|]. split; [exact Hs|].
  cbn [xv_shape xv_data]. split; [reflexivity|]. split; [apply length_reduced|].
  intros r c Hr Hc. unfold item. rewrite ravel_2d.
  rewrite reduced_none.
  - unfold sum_last. now rewrite nth_map_seq by now apply flat_lt.
  - unfold combined. cbn [fold_left]. apply existsb_repeat_false.
Qed.


(** ** The button of the panel *)

Lemma remove_items_all fuel : forall objects,
  length objects < fuel -> Panel.remove_items fuel objects = Some (Ok tt, []).
Proof.
  induction fuel as [|fuel IH]; intros objects Hl; [lia|].
  destruct objects as [|g objects]; [reflexivity|].
  cbn [length] in Hl. change (Panel.remove_items (S fuel) (g :: objects))
    with (Panel.remove_items fuel objects).
  apply IH. lia.
Qed.

Lemma insert_items_all graphics : forall objects,
  for_each (fun _ graphic => Panel.insert_item_into_objects 0 graphic) tt graphics objects =
  (Ok tt, rev graphics ++ objects).
Proof.
  induction graphics as [|g graphics IH]; intros objects; simpl; [reflexivity|].
  unfold bind. simpl. rewrite IH, <- app_assoc. reflexivity.
Qed.

(** X5.  A click with graphics selected replaces the regions of the
    computation, whatever they were, by the selected graphics in reverse
    order; the loop that empties the list ends after one round more than
    the list is long. *)
Theorem select_button_replaces fuel display objects :
  Panel.selected_graphics display <> [] -> length objects < fuel ->
  Panel.select_button_clicked fuel (Some display) objects =
  Some (Ok tt, rev (Panel.selected_graphics display)).
Proof.
  intros Hsel Hfuel. unfold Panel.select_button_clicked.
  destruct (Panel.selected_graphics display) as [|g graphics] eqn:E; [contradiction|].
  rewrite (remove_items_all fuel objects Hfuel), insert_items_all.
  now rewrite app_nil_r.
Qed.
End MoreOnExecute.

(** * The set-up *)



(** * The further theorems at concrete inputs *)

Lemma select_button_replaces_witness :
  Panel.select_button_clicked 2 (Some target_two) [region_all] =
  Some (Ok tt, [region_row0; region_origin]).
Proof.
  apply (select_button_replaces 2 target_two [region_all]).
  - discriminate.
  - simpl. lia.
Defined.


Lemma execute_disjoint_regions_witness :
  exists fA fB,
    returns 0%Z (execute Z.add 0%Z map4d_new (Some {| xdata := Some xdata_2222 |})
                         (Some [region_origin]) store_0_15) 2 2 fA /\
    returns 0%Z (execute Z.add 0%Z map4d_new (Some {| xdata := Some xdata_2222 |})
                         (Some [region_corner]) store_0_15) 2 2 fB /\
    returns 0%Z (execute Z.add 0%Z map4d_new (Some {| xdata := Some xdata_2222 |})
                         (Some ([region_origin] ++ [region_corner])) store_0_15)
            2 2 (fun r c => (fA r c + fB r c)%Z).
Proof.
  apply (execute_disjoint_regions Z.add 0%Z Z.add_0_l Z.add_comm Z.add_assoc map4d_new
           xdata_2222 value_2222 store_0_15 [region_origin] [region_corner] 2 2 2 2).
  - repeat split; reflexivity.
  - lia.
  - lia.
  - exists (0, 0). split; [simpl; auto|reflexivity].
  - exists (1, 1). split; [simpl; auto|reflexivity].
  - intros p Hp. simpl in Hp. destruct Hp as [<-|[<-|[<-|[<-|[]]]]]; reflexivity.
Defined.

Lemma execute_any_rank_witness :
  returns 0%Z (execute Z.add 0%Z map4d_new (Some {| xdata := Some xdata_224 |}) (Some [])
                       store_0_15)
          2 2 (fun r c => sum_list Z.add 0%Z
                            (firstn (prod [4]) (skipn ((r * 2 + c) * prod [4])
                                                      (xv_data value_224)))).
Proof.
  apply (execute_any_rank Z.add 0%Z map4d_new xdata_224 value_224 store_0_15 2 2 [4]).
  - reflexivity.
  - reflexivity.
  - lia.
  - lia.
Defined.



